(** * gmail-mcp-server: attachment resolution, sandboxed reads and MIME assembly

    A shallow embedding of [gmail_mcp_server.py] (the helpers
    [_safe_read_file], [_resolve_attachment_path] and [build_raw_email]) and
    of the parts of the Python standard library they call ([posixpath],
    [int], [base64]/[binascii], [email.mime], [email.generator]).

    Python [str] and [bytes] values are both modelled as Rocq [string]s, a
    [str] standing for its UTF-8 encoding.  Dictionaries ([os.environ], an
    attachment item) are finite maps with string keys. *)

From Stdlib Require Import ZArith Ascii String DecimalString DecimalN List Lia Bool.
From stdpp Require Import base option list gmap strings.

Local Open Scope Z_scope.

(** ** Python strings *)

Module Str.

(** Truth value of a string: [bool(s)]. *)
Definition truthy (s : string) : bool :=
  match s with
  | EmptyString => false
  | String _ _ => true
  end.

(** Truth value of [d.get(k)]: a missing key and [None] are both falsy. *)
Definition otruthy (o : option string) : bool :=
  match o with
  | Some s => truthy s
  | None => false
  end.

(** [s.startswith(pre)] *)
Fixpoint startswith (pre s : string) : bool :=
  match pre with
  | EmptyString => true
  | String a pre' =>
      match s with
      | EmptyString => false
      | String b s' => Ascii.eqb a b && startswith pre' s'
      end
  end.

(** [s.endswith(c)] for a one-character [c]. *)
Fixpoint endswith_char (c : ascii) (s : string) : bool :=
  match s with
  | EmptyString => false
  | String a EmptyString => Ascii.eqb a c
  | String _ s' => endswith_char c s'
  end.

(** [s.split(c)] for a one-character separator: never the empty list. *)
Fixpoint split_on (c : ascii) (s : string) : list string :=
  match s with
  | EmptyString => [EmptyString]
  | String a s' =>
      if Ascii.eqb a c then EmptyString :: split_on c s'
      else match split_on c s' with
           | h :: t => String a h :: t
           | [] => [String a EmptyString]
           end
  end.

(** [sep.join(l)] *)
Fixpoint join (sep : string) (l : list string) : string :=
  match l with
  | [] => EmptyString
  | [x] => x
  | x :: l' => x +:+ sep +:+ join sep l'
  end.

(** [c * n] *)
Fixpoint replicate_char (n : nat) (c : ascii) : string :=
  match n with
  | O => EmptyString
  | S n' => String c (replicate_char n' c)
  end.

(** [c in s] *)
Fixpoint contains_char (c : ascii) (s : string) : bool :=
  match s with
  | EmptyString => false
  | String a s' => Ascii.eqb a c || contains_char c s'
  end.

Fixpoint forallb_char (f : ascii -> bool) (s : string) : bool :=
  match s with
  | EmptyString => true
  | String a s' => f a && forallb_char f s'
  end.

(** Characters removed by [str.strip()] (the ASCII ones). *)
Definition is_space (c : ascii) : bool :=
  let n := N_of_ascii c in
  ((9 <=? n) && (n <=? 13) || (28 <=? n) && (n <=? 32))%N.

Fixpoint lstrip (s : string) : string :=
  match s with
  | EmptyString => EmptyString
  | String a s' => if is_space a then lstrip s' else s
  end.

Fixpoint rstrip (s : string) : string :=
  match s with
  | EmptyString => EmptyString
  | String a s' =>
      match rstrip s' with
      | EmptyString => if is_space a then EmptyString else String a EmptyString
      | r => String a r
      end
  end.

Definition strip (s : string) : string := rstrip (lstrip s).

(** [s.lower()] on ASCII letters. *)
Definition lower_char (c : ascii) : ascii :=
  let n := N_of_ascii c in
  if ((65 <=? n) && (n <=? 90))%N then ascii_of_N (n + 32) else c.

Fixpoint lower (s : string) : string :=
  match s with
  | EmptyString => EmptyString
  | String a s' => String (lower_char a) (lower s')
  end.

(** [s.encode("ascii")] succeeds. *)
Definition is_ascii (s : string) : bool :=
  forallb_char (fun c => (N_of_ascii c <? 128)%N) s.

End Str.

(** ** [int(s)] for a decimal string *)

Module PyInt.

Definition digit (c : ascii) : option Z :=
  let n := N_of_ascii c in
  if ((48 <=? n) && (n <=? 57))%N then Some (Z.of_N n - 48) else None.

(** Digits with single underscores between them; [after_digit] tells
    whether the previous character was a digit. *)
Fixpoint digits (acc : Z) (after_digit : bool) (s : string) : option Z :=
  match s with
  | EmptyString => if after_digit then Some acc else None
  | String c s' =>
      match digit c with
      | Some d => digits (10 * acc + d) true s'
      | None =>
          if Ascii.eqb c "_" && after_digit then
            match s' with
            | EmptyString => None
            | String c' _ =>
                match digit c' with
                | Some _ => digits acc false s'
                | None => None
                end
            end
          else None
      end
  end.

(** [int(s)]: surrounding whitespace, an optional sign, then digits.
    [None] stands for [ValueError]. *)
Definition int (s : string) : option Z :=
  match Str.strip s with
  | String "-" r => Z.opp <$> digits 0 false r
  | String "+" r => digits 0 false r
  | r => digits 0 false r
  end.

End PyInt.

(** ** [posixpath] *)

Module PosixPath.

Definition sep : string := "/".

Definition isabs (s : string) : bool := Str.startswith sep s.

(** [os.path.join(a, b)] *)
Definition join (a b : string) : string :=
  if Str.startswith sep b then b
  else if negb (Str.truthy a) || Str.endswith_char "/" a then a +:+ b
  else a +:+ sep +:+ b.

(** [os.path.basename(p)]: what follows the last slash. *)
Definition basename (p : string) : string :=
  List.last (Str.split_on "/" p) EmptyString.

Definition is_nil {A} (l : list A) : bool :=
  match l with [] => true | _ => false end.

Definition last_is_dotdot (l : list string) : bool :=
  match l with
  | [] => false
  | _ => String.eqb (List.last l EmptyString) ".."
  end.

(** One iteration of the loop of [normpath] over the components. *)
Definition normpath_step (initial_slashes : nat)
    (new_comps : list string) (comp : string) : list string :=
  if String.eqb comp "" || String.eqb comp "." then new_comps
  else if negb (String.eqb comp "..")
          || (Nat.eqb initial_slashes 0 && is_nil new_comps)
          || last_is_dotdot new_comps
       then new_comps ++ [comp]
       else removelast new_comps.

Definition initial_slashes (path : string) : nat :=
  if Str.startswith "/" path then
    if Str.startswith "//" path && negb (Str.startswith "///" path)
    then 2%nat else 1%nat
  else 0%nat.

Definition normpath (path : string) : string :=
  if negb (Str.truthy path) then "."
  else
    let k := initial_slashes path in
    let comps := fold_left (normpath_step k) (Str.split_on "/" path) [] in
    let path' := Str.replicate_char k "/" +:+ Str.join "/" comps in
    if Str.truthy path' then path' else ".".

(** [os.path.abspath(path)] with [os.getcwd() = cwd]. *)
Definition abspath (cwd path : string) : string :=
  if Str.startswith "/" path then normpath path
  else normpath (join cwd path).

End PosixPath.

(** ** The world outside the program *)

(** What the operating system answers for a path: the size reported by
    [os.stat] and, when the file can be opened and read, its bytes. *)
Record node := { st_size : Z; content : option string }.

Record world := {
  environ : gmap string string;            (* os.environ *)
  cwd : string;                            (* os.getcwd() *)
  lookup_path : string -> option node;     (* the filesystem *)
  guess_type : string -> option string;    (* mimetypes.guess_type(f)[0] *)
}.

(** The system calls a run performs, in order. *)
Inductive event :=
| EvGetenv (key value : string)
| EvGetsize (p : string)
| EvRead (p : string).

(** The exceptions of a run, named after the spec's taxonomy. *)
Inductive error :=
| PathEscapeError (p : string)
    (* ValueError: Attachment path not allowed (outside base dir): {p} *)
| AttachmentTooLargeError (size max_mb : Z)
    (* ValueError: Attachment too large: {size} bytes (max {max_mb}MB) *)
| AttachmentReadError (p : string)
    (* OSError from os.path.getsize or open/read *)
| ConflictingSourceError
    (* ValueError: attachment: provide either content_base64 OR path, not both *)
| MissingFilenameError
    (* ValueError: attachment with content_base64 requires filename *)
| MissingSourceError
    (* ValueError: attachment requires content_base64 or path *)
| InvalidBase64Error
    (* binascii.Error, or ValueError for a non-ASCII string *)
| InvalidLimitError (s : string)
    (* ValueError: invalid literal for int() with base 10 *)
| UnicodeEncodeError
    (* as_bytes() on a header that is not ASCII *)
| GeneratorError.
    (* AttributeError inside email.generator *)

Inductive result (A : Type) :=
| Ok (a : A)
| Err (e : error).
Arguments Ok {A} a.
Arguments Err {A} e.

(** A computation reads the world and yields its trace and its outcome. *)
Definition M (A : Type) : Type := world -> list event * result A.

#[global] Instance M_ret : MRet M := fun A a _ => ([], Ok a).

#[global] Instance M_bind : MBind M := fun A B f m w =>
  match m w with
  | (t, Ok a) => let '(t', r) := f a w in (t ++ t', r)
  | (t, Err e) => (t, Err e)
  end.

Definition raise {A} (e : error) : M A := fun _ => ([], Err e).

Definition trace {A} (r : list event * result A) : list event := fst r.
Definition outcome {A} (r : list event * result A) : result A := snd r.

(** [os.getenv(key, default)] *)
Definition os_getenv (key dflt : string) : M string := fun w =>
  let v := default dflt (environ w !! key) in ([EvGetenv key v], Ok v).

(** [os.path.abspath(path)] *)
Definition os_path_abspath (path : string) : M string := fun w =>
  ([], Ok (PosixPath.abspath (cwd w) path)).

(** [os.path.getsize(p)] *)
Definition os_path_getsize (p : string) : M Z := fun w =>
  ([EvGetsize p],
   match lookup_path w p with
   | Some n => Ok (st_size n)
   | None => Err (AttachmentReadError p)
   end).

(** [with open(p, "rb") as f: return f.read()] *)
Definition read_file (p : string) : M string := fun w =>
  ([EvRead p],
   match lookup_path w p with
   | Some {| content := Some d |} => Ok d
   | _ => Err (AttachmentReadError p)
   end).

Definition py_int (s : string) : M Z :=
  match PyInt.int s with
  | Some n => mret n
  | None => raise (InvalidLimitError s)
  end.

Definition mimetypes_guess_type (filename : string) : M (option string) :=
  fun w => ([], Ok (guess_type w filename)).

(** ** Helpers: attachment reading *)

(** The test of line 76: [p == b or p.startswith(b + os.sep)]. *)
Definition inside (b p : string) : bool :=
  String.eqb p b || Str.startswith (b +:+ PosixPath.sep) p.

Definition _safe_read_file (path : string) (base_dir : option string) : M string :=
  p ← os_path_abspath path;
  _ ← (if Str.otruthy base_dir then
         b ← os_path_abspath (default "" base_dir);
         if negb (inside b p) then raise (PathEscapeError p) else mret ()
       else mret ());
  max_mb_s ← os_getenv "MAX_ATTACHMENT_MB" "20";
  max_mb ← py_int max_mb_s;
  size ← os_path_getsize p;
  if size >? max_mb * 1024 * 1024
  then raise (AttachmentTooLargeError size max_mb)
  else read_file p.

Definition _resolve_attachment_path (path : string) : M string :=
  base_dir ← os_getenv "ATTACHMENTS_BASE_DIR" "/shared";
  mret (if Str.truthy path && negb (PosixPath.isabs path)
        then PosixPath.join base_dir path
        else path).

(** ** Helpers: email building *)

(** [guessed or "application/octet-stream"] *)
Definition or_octet_stream (guessed : option string) : string :=
  if Str.otruthy guessed then default "" guessed else "application/octet-stream".

(** [mime_type] when truthy, else the type guessed from [filename]. *)
Definition mime_type_or_guess (mime_type : option string) (filename : string) : M string :=
  if Str.otruthy mime_type then mret (default "" mime_type)
  else guessed ← mimetypes_guess_type filename; mret (or_octet_stream guessed).

(** ** [base64] and [binascii] *)

Module Base64.

(** Value of a character of the standard alphabet. *)
Definition a2b (c : ascii) : option N :=
  let n := N_of_ascii c in
  if ((65 <=? n) && (n <=? 90))%N then Some (n - 65)%N
  else if ((97 <=? n) && (n <=? 122))%N then Some (n - 71)%N
  else if ((48 <=? n) && (n <=? 57))%N then Some (n + 4)%N
  else if (n =? 43)%N then Some 62%N
  else if (n =? 47)%N then Some 63%N
  else None.

(** Character of a six-bit value. *)
Definition b2a (v : N) : ascii :=
  if (v <? 26)%N then ascii_of_N (v + 65)
  else if (v <? 52)%N then ascii_of_N (v + 71)
  else if (v <? 62)%N then ascii_of_N (v - 4)
  else if (v =? 62)%N then "+"%char
  else "/"%char.

Definition pad : ascii := "="%char.

(** Three bytes give four characters; a short last group is padded. *)
Fixpoint encode_groups (s : string) : string :=
  match s with
  | EmptyString => EmptyString
  | String x EmptyString =>
      let a := N_of_ascii x in
      String (b2a (N.shiftr a 2))
        (String (b2a (N.shiftl (N.land a 3) 4))
           (String pad (String pad EmptyString)))
  | String x (String y EmptyString) =>
      let a := N_of_ascii x in
      let b := N_of_ascii y in
      String (b2a (N.shiftr a 2))
        (String (b2a (N.lor (N.shiftl (N.land a 3) 4) (N.shiftr b 4)))
           (String (b2a (N.shiftl (N.land b 15) 2))
              (String pad EmptyString)))
  | String x (String y (String z r)) =>
      let a := N_of_ascii x in
      let b := N_of_ascii y in
      let c := N_of_ascii z in
      String (b2a (N.shiftr a 2))
        (String (b2a (N.lor (N.shiftl (N.land a 3) 4) (N.shiftr b 4)))
           (String (b2a (N.lor (N.shiftl (N.land b 15) 2) (N.shiftr c 6)))
              (String (b2a (N.land c 63)) (encode_groups r))))
  end.

(** [base64.b64encode(s)] *)
Definition b64encode (s : string) : string := encode_groups s.

(** [binascii.b2a_base64(s)]: the encoding and a newline. *)
Definition b2a_base64 (s : string) : string :=
  encode_groups s +:+ String "010" EmptyString.

(** Pieces of at most [n] bytes ([room] is what the first may still take). *)
Fixpoint chunks_go (n room : nat) (s : string) : list string :=
  match s with
  | EmptyString => []
  | String a s' =>
      match room with
      | S (S r) =>
          match chunks_go n (S r) s' with
          | h :: t => String a h :: t
          | [] => [String a EmptyString]
          end
      | _ => String a EmptyString :: chunks_go n n s'
      end
  end.

Definition chunks (n : nat) (s : string) : list string := chunks_go n n s.

(** [base64.encodebytes(s)], which is also
    [email.base64mime.body_encode(s)]: lines of 76 characters, each
    ended by a newline. *)
Definition encodebytes (s : string) : string :=
  Str.join "" (map b2a_base64 (chunks 57 s)).

Definition cons_byte (b : N) (r : option string) : option string :=
  String (ascii_of_N b) <$> r.

(** The loop of [binascii.a2b_base64] without [strict_mode]: characters
    outside the alphabet are skipped, a complete pad sequence ends the
    input, and [None] is [binascii.Error] (a quad left unfinished). *)
Fixpoint a2b_loop (quad_pos : nat) (leftchar : N) (pads : nat)
    (s : string) : option string :=
  match s with
  | EmptyString => if Nat.eqb quad_pos 0 then Some EmptyString else None
  | String c s' =>
      if Ascii.eqb c pad then
        if Nat.leb 2 quad_pos && Nat.leb 4 (quad_pos + S pads)
        then Some EmptyString
        else a2b_loop quad_pos leftchar
               (if Nat.leb 2 quad_pos then S pads else pads) s'
      else
        match a2b c with
        | None => a2b_loop quad_pos leftchar pads s'
        | Some v =>
            match quad_pos with
            | 0%nat => a2b_loop 1 v 0 s'
            | 1%nat =>
                cons_byte (N.lor (N.shiftl leftchar 2) (N.shiftr v 4))
                  (a2b_loop 2 (N.land v 15) 0 s')
            | 2%nat =>
                cons_byte (N.lor (N.shiftl leftchar 4) (N.shiftr v 2))
                  (a2b_loop 3 (N.land v 3) 0 s')
            | _ =>
                cons_byte (N.lor (N.shiftl leftchar 6) v)
                  (a2b_loop 0 0 0 s')
            end
        end
  end.

Definition a2b_base64 (s : string) : option string := a2b_loop 0 0 0 s.

(** [base64.b64decode(s)] for a [str] argument and [validate=False]:
    the string must be ASCII, then [a2b_base64] decodes it. *)
Definition b64decode (s : string) : option string :=
  if Str.is_ascii s then a2b_base64 s else None.

Fixpoint translate (from to : ascii) (s : string) : string :=
  match s with
  | EmptyString => EmptyString
  | String a s' =>
      String (if Ascii.eqb a from then to else a) (translate from to s')
  end.

(** [base64.urlsafe_b64encode(s)] *)
Definition urlsafe_b64encode (s : string) : string :=
  translate "/" "_" (translate "+" "-" (b64encode s)).

(** [base64.urlsafe_b64decode(s)] *)
Definition urlsafe_b64decode (s : string) : option string :=
  b64decode (translate "_" "/" (translate "-" "+" s)).

End Base64.

(** ** Attachment resolution: the body of the loop of [build_raw_email] *)

(** An attachment item is a dictionary; [att.get(k)] is [att !! k]. *)
Abbreviation attachment_spec := (gmap string string).

Record resolved_attachment := {
  ra_filename : string;
  ra_mime_type : string;
  ra_data : string;
}.

(** Lines 129-143: the item names a file of the shared volume. *)
Definition path_branch (filename mime_type : option string) (path : string)
    : M resolved_attachment :=
  path' ← _resolve_attachment_path path;
  let filename' :=
    if Str.otruthy filename then default "" filename
    else PosixPath.basename path' in
  mime_type' ← mime_type_or_guess mime_type filename';
  base_dir ← os_getenv "ATTACHMENTS_BASE_DIR" "/shared";
  data ← _safe_read_file path' (Some base_dir);
  mret {| ra_filename := filename'; ra_mime_type := mime_type'; ra_data := data |}.

(** Lines 145-154: the item carries its bytes in base64. *)
Definition base64_branch (filename mime_type : option string)
    (content_b64 : string) : M resolved_attachment :=
  if negb (Str.otruthy filename) then raise MissingFilenameError
  else
    let filename' := default "" filename in
    mime_type' ← mime_type_or_guess mime_type filename';
    match Base64.b64decode content_b64 with
    | Some data =>
        mret {| ra_filename := filename'; ra_mime_type := mime_type';
                ra_data := data |}
    | None => raise InvalidBase64Error
    end.

(** Lines 121-157. *)
Definition resolve_attachment (att : attachment_spec) : M resolved_attachment :=
  let filename := att !! "filename" in
  let mime_type := att !! "mime_type" in
  let content_b64 := att !! "content_base64" in
  let path := att !! "path" in
  if Str.otruthy content_b64 && Str.otruthy path then raise ConflictingSourceError
  else if Str.otruthy path then path_branch filename mime_type (default "" path)
  else if Str.otruthy content_b64
       then base64_branch filename mime_type (default "" content_b64)
  else raise MissingSourceError.

(** ** [email.mime] messages *)

Definition header : Type := string * string.

(** A part that is not a multipart: its headers and its text payload. *)
Record part := { headers : list header; payload : string }.

(** The multipart container. *)
Record multipart := { mp_headers : list header; subparts : list part }.

Definition dquote : string := String "034" EmptyString.
Definition NL : string := String "010" EmptyString.

(** [MIMEText(text, subtype, "utf-8")]: the UTF-8 charset asks for a
    base64 body. *)
Definition MIMEText (text subtype : string) : part :=
  {| headers :=
       [("Content-Type",
          "text/" +:+ subtype +:+ "; charset=" +:+ dquote +:+ "utf-8" +:+ dquote);
        ("MIME-Version", "1.0");
        ("Content-Transfer-Encoding", "base64")];
     payload := Base64.encodebytes text |}.

(** [s.split("/", 1)] *)
Fixpoint split_first_slash (s : string) : string * option string :=
  match s with
  | EmptyString => (EmptyString, None)
  | String a s' =>
      if Ascii.eqb a "/" then (EmptyString, Some s')
      else let '(h, t) := split_first_slash s' in (String a h, t)
  end.

(** Line 159: [(mime_type.split("/", 1) + ["octet-stream"])[:2]] *)
Definition split_mime_type (mime_type : string) : string * string :=
  match split_first_slash mime_type with
  | (maintype, Some subtype) => (maintype, subtype)
  | (maintype, None) => (maintype, "octet-stream")
  end.

(** Lines 159-163: [MIMEBase], [set_payload], [encode_base64] and the
    [Content-Disposition] header. *)
Definition attachment_part (r : resolved_attachment) : part :=
  let '(maintype, subtype) := split_mime_type (ra_mime_type r) in
  {| headers :=
       [("Content-Type", maintype +:+ "/" +:+ subtype);
        ("MIME-Version", "1.0");
        ("Content-Transfer-Encoding", "base64");
        ("Content-Disposition",
          "attachment; filename=" +:+ dquote +:+ ra_filename r +:+ dquote)];
     payload := Base64.encodebytes (ra_data r) |}.

Record send_request := {
  to : string;
  subject : string;
  body : string;
  body_format : string;
  attachments : list attachment_spec;
}.

(** The loop of lines 120-164: the first failing item ends the run. *)
Fixpoint attach_all (atts : list attachment_spec) : M (list part) :=
  match atts with
  | [] => mret []
  | att :: rest =>
      r ← resolve_attachment att;
      ps ← attach_all rest;
      mret (attachment_part r :: ps)
  end.

(** Lines 111-164: the message before it is serialized. *)
Definition assemble (req : send_request) : M multipart :=
  let text :=
    MIMEText (body req)
      (if String.eqb (body_format req) "html" then "html" else "plain") in
  ps ← attach_all (attachments req);
  mret {| mp_headers :=
            [("Content-Type", "multipart/mixed");
             ("MIME-Version", "1.0");
             ("To", to req);
             ("Subject", subject req)];
          subparts := text :: ps |}.

(** ** [email.generator]: [msg.as_bytes()] under the [compat32] policy

    [as_bytes] runs a [BytesGenerator]: a header whose value is a [str] is
    written verbatim as [Name: value] and encoded as ASCII (no folding, no
    check for line breaks inside the value); the payload of a part is
    base64 text and is written as it is; a multipart without a boundary
    gets a fresh random one. *)

#[global] Instance result_ret : MRet result := fun A a => Ok a.

#[global] Instance result_bind : MBind result := fun A B f r =>
  match r with
  | Ok a => f a
  | Err e => Err e
  end.

Definition lift {A} (r : result A) : M A := fun _ => ([], r).

Module Generator.

(** [policy.fold_binary(name, value)]: the header line, encoded as ASCII. *)
Definition fold_binary (h : header) : result string :=
  let line := fst h +:+ ": " +:+ snd h +:+ NL in
  if Str.is_ascii line then Ok line else Err UnicodeEncodeError.

(** [_write_headers]: every header line, then the blank line. *)
Fixpoint write_headers (hs : list header) : result string :=
  match hs with
  | [] => Ok NL
  | h :: rest =>
      line ← fold_binary h;
      lines ← write_headers rest;
      mret (line +:+ lines)
  end.

(** [msg.get(name)]: the first header of that name, whatever its case. *)
Fixpoint get_header (name : string) (hs : list header) : option string :=
  match hs with
  | [] => None
  | (h, v) :: rest =>
      if String.eqb (Str.lower h) name then Some v else get_header name rest
  end.

Fixpoint before_semicolon (s : string) : string :=
  match s with
  | EmptyString => EmptyString
  | String a s' =>
      if Ascii.eqb a ";" then EmptyString else String a (before_semicolon s')
  end.

Fixpoint count_char (c : ascii) (s : string) : nat :=
  match s with
  | EmptyString => O
  | String a s' => ((if Ascii.eqb a c then 1 else 0) + count_char c s')%nat
  end.

(** [msg.get_content_type()] *)
Definition get_content_type (hs : list header) : string :=
  match get_header "content-type" hs with
  | None => "text/plain"
  | Some v =>
      let ctype := Str.lower (Str.strip (before_semicolon v)) in
      if Nat.eqb (count_char "/" ctype) 1 then ctype else "text/plain"
  end.

(** [_dispatch] on a part whose payload is a string: every handler
    writes the payload as it is, but [_handle_message_delivery_status]
    takes it for a list of messages and fails on its first character. *)
Definition dispatch (p : part) : result string :=
  if String.eqb (get_content_type (headers p)) "message/delivery-status"
     && Str.truthy (payload p)
  then Err GeneratorError
  else Ok (payload p).

(** [_write]: the body is produced first, the headers are put in front. *)
Definition flatten_part (p : part) : result string :=
  text ← dispatch p;
  hs ← write_headers (headers p);
  mret (hs +:+ text).

Fixpoint flatten_parts (ps : list part) : result (list string) :=
  match ps with
  | [] => Ok []
  | p :: rest =>
      t ← flatten_part p;
      ts ← flatten_parts rest;
      mret (t :: ts)
  end.

(** [str(n)] *)
Definition str_N (n : N) : string :=
  DecimalString.NilEmpty.string_of_uint (N.to_uint n).

(** ['%019d' % token] *)
Definition fmt (token : N) : string :=
  let d := str_N token in
  Str.replicate_char (19 - String.length d) "0" +:+ d.

(** A line of [text] is [--b] or [--b--]: the search of
    [^--b(--)?$] in multi-line mode. *)
Definition collides (b : string) (lines : list string) : bool :=
  existsb (fun l => String.eqb l ("--" +:+ b) || String.eqb l ("--" +:+ b +:+ "--"))
    lines.

(** The loop of [_make_boundary], bounded by [fuel].  Distinct candidates
    collide with distinct lines, so with [S (length lines)] rounds the
    bound is never reached (lemma [make_boundary_fresh]). *)
Fixpoint find_boundary (fuel : nat) (lines : list string)
    (boundary b : string) (counter : N) : string :=
  match fuel with
  | O => b
  | S fuel' =>
      if collides b lines
      then find_boundary fuel' lines boundary
             (boundary +:+ "." +:+ str_N counter) (counter + 1)%N
      else b
  end.

(** [_make_boundary(text)], [token] being the value drawn by
    [random.randrange(sys.maxsize)]. *)
Definition _make_boundary (token : N) (text : string) : string :=
  let boundary := Str.replicate_char 15 "=" +:+ fmt token +:+ "==" in
  let lines := Str.split_on "010" text in
  find_boundary (S (length lines)) lines boundary boundary 0.

(** [msg.set_boundary(b)] on a [Content-Type] without parameters. *)
Definition set_boundary (b : string) (hs : list header) : list header :=
  map (fun '(h, v) =>
         if String.eqb (Str.lower h) "content-type"
         then (h, v +:+ "; boundary=" +:+ dquote +:+ b +:+ dquote)
         else (h, v))
    hs.

(** [_handle_multipart] and [_write] for the container: the parts are
    flattened first, a boundary that occurs in none of them is chosen,
    then headers, delimiters and parts are written. *)
Definition as_bytes (token : N) (m : multipart) : result string :=
  texts ← flatten_parts (subparts m);
  let b := _make_boundary token (Str.join NL texts) in
  hs ← write_headers (set_boundary b (mp_headers m));
  mret (hs +:+ "--" +:+ b +:+ NL
        +:+ Str.join (NL +:+ "--" +:+ b +:+ NL) texts
        +:+ NL +:+ "--" +:+ b +:+ "--" +:+ NL).

End Generator.

(** Lines 104-167.  [token] is the random number the serializer draws for
    the multipart boundary. *)
Definition build_raw_email (token : N) (req : send_request) : M string :=
  msg ← assemble req;
  bytes ← lift (Generator.as_bytes token msg);
  mret (Base64.urlsafe_b64encode bytes).

(** ** Reading a message back: [email.message_from_bytes]

    The reader the round-trip property is stated with: header lines up to
    the first blank line, parameters split at semicolons outside quotes,
    the body cut at the delimiter lines of the boundary. *)

Module Parser.

Definition is_wsp (c : ascii) : bool := Ascii.eqb c " " || Ascii.eqb c "009".

Fixpoint lstrip_wsp (s : string) : string :=
  match s with
  | EmptyString => EmptyString
  | String a s' => if is_wsp a then lstrip_wsp s' else s
  end.

(** Characters allowed in a header name: printable, no colon, no space. *)
Definition is_name_char (c : ascii) : bool :=
  let n := N_of_ascii c in
  ((33 <=? n) && (n <=? 126) && negb (n =? 58))%N.

(** [Name: value] gives the name and what follows the colon. *)
Fixpoint split_colon (s : string) : option (string * string) :=
  match s with
  | EmptyString => None
  | String a s' =>
      if Ascii.eqb a ":" then Some (EmptyString, s')
      else if is_name_char a then
        match split_colon s' with
        | Some (n, v) => Some (String a n, v)
        | None => None
        end
      else None
  end.

Definition is_continuation (l : string) : bool :=
  match l with
  | String a _ => is_wsp a
  | EmptyString => false
  end.

(** The header block ends at the first blank line, which is dropped, or
    at the first line that is no header line. *)
Fixpoint split_headers (lines : list string) : list string * list string :=
  match lines with
  | [] => ([], [])
  | l :: rest =>
      if String.eqb l "" then ([], rest)
      else if is_continuation l || bool_decide (is_Some (split_colon l)) then
        let '(hs, bs) := split_headers rest in (l :: hs, bs)
      else ([], lines)
  end.

(** Header lines to headers; a continuation line extends the value of
    the header before it. *)
Fixpoint parse_headers (cur : option header) (lines : list string) : list header :=
  match lines with
  | [] => option_list cur
  | l :: rest =>
      if is_continuation l then
        parse_headers
          (match cur with
           | Some (n, v) => Some (n, v +:+ NL +:+ l)
           | None => None
           end) rest
      else
        match split_colon l with
        | Some (n, v) => option_list cur ++ parse_headers (Some (n, lstrip_wsp v)) rest
        | None => option_list cur ++ parse_headers None rest
        end
  end.

(** The items of [value] between semicolons that are outside quotes. *)
Fixpoint split_semi (in_quote : bool) (s : string) : list string :=
  match s with
  | EmptyString => [EmptyString]
  | String a s' =>
      if Ascii.eqb a ";" && negb in_quote then EmptyString :: split_semi false s'
      else
        let q := if Ascii.eqb a "034" then negb in_quote else in_quote in
        match split_semi q s' with
        | h :: t => String a h :: t
        | [] => [String a EmptyString]
        end
  end.

Fixpoint split_equals (s : string) : option (string * string) :=
  match s with
  | EmptyString => None
  | String a s' =>
      if Ascii.eqb a "=" then Some (EmptyString, s')
      else match split_equals s' with
           | Some (n, v) => Some (String a n, v)
           | None => None
           end
  end.

Fixpoint drop_last_quote (s : string) : option string :=
  match s with
  | EmptyString => None
  | String a EmptyString => if Ascii.eqb a "034" then Some EmptyString else None
  | String a s' => String a <$> drop_last_quote s'
  end.

(** [email.utils.unquote] for a value without backslashes. *)
Definition unquote (s : string) : string :=
  match s with
  | String a s' =>
      if Ascii.eqb a "034" then default s (drop_last_quote s') else s
  | EmptyString => EmptyString
  end.

Fixpoint find_param (name : string) (items : list string) : option string :=
  match items with
  | [] => None
  | item :: rest =>
      match split_equals item with
      | Some (n, v) =>
          if String.eqb (Str.lower (Str.strip n)) name
          then Some (unquote (Str.strip v))
          else find_param name rest
      | None => find_param name rest
      end
  end.

(** [msg.get_param(name, header=h)] *)
Definition get_param (name h : string) (hs : list header) : option string :=
  v ← Generator.get_header h hs;
  find_param name (tail (split_semi false v)).

(** The value of header [h] before its parameters, lower-cased. *)
Definition main_value (h : string) (hs : list header) : option string :=
  v ← Generator.get_header h hs;
  mret (Str.lower (Str.strip (Generator.before_semicolon v))).

Fixpoint all_wsp (s : string) : bool :=
  match s with
  | EmptyString => true
  | String a s' => is_wsp a && all_wsp s'
  end.

(** [l] is [pre] followed by blanks only. *)
Fixpoint is_line (pre l : string) : bool :=
  match pre with
  | EmptyString => all_wsp l
  | String a pre' =>
      match l with
      | EmptyString => false
      | String b l' => Ascii.eqb a b && is_line pre' l'
      end
  end.

(** The lines of the parts: what precedes the first delimiter and what
    follows the closing one belong to no part. *)
Fixpoint parts_go (b : string) (cur : option (list string))
    (lines : list string) : list (list string) :=
  match lines with
  | [] => option_list (@rev string <$> cur)
  | l :: rest =>
      if is_line ("--" +:+ b +:+ "--") l then option_list (@rev string <$> cur)
      else if is_line ("--" +:+ b) l then
        option_list (@rev string <$> cur) ++ parts_go b (Some []) rest
      else parts_go b (cons l <$> cur) rest
  end.

Definition parse_part (lines : list string) : part :=
  let '(hl, bl) := split_headers lines in
  {| headers := parse_headers None hl; payload := Str.join NL bl |}.

(** A multipart message read from its bytes; [None] when the bytes are
    no multipart message with a boundary. *)
Definition parse (bytes : string) : option multipart :=
  let '(hl, bl) := split_headers (Str.split_on "010" bytes) in
  let hs := parse_headers None hl in
  b ← get_param "boundary" "content-type" hs;
  mret {| mp_headers := hs; subparts := parse_part <$> parts_go b None bl |}.

(** [part.get_content_disposition() == "attachment"] *)
Definition is_attachment (p : part) : bool :=
  bool_decide (main_value "content-disposition" (headers p) = Some "attachment").

Definition attachment_parts (m : multipart) : list part :=
  filter (fun p => is_attachment p = true) (subparts m).

(** [part.get_filename()] *)
Definition get_filename (p : part) : option string :=
  get_param "filename" "content-disposition" (headers p).

(** [part.get_payload(decode=True)] *)
Definition get_payload_decoded (p : part) : option string :=
  if bool_decide (main_value "content-transfer-encoding" (headers p) = Some "base64")
  then Base64.b64decode (payload p)
  else Some (payload p).

End Parser.

(** ** Gmail OAuth and the tool [send_gmail]

    The Google client libraries and the files of the host are outside
    the program: they are the fields of [client], every call either
    answering or raising.  What is modelled is the order in which the
    code makes these calls and what it does with their answers. *)

Module Service.

(** Lines 36-37: the two paths, read from the environment when the
    module is loaded. *)
Record settings := {
  TOKEN_FILE : string;
  CREDENTIALS_FILE : string;
}.

Definition load_settings (env : gmap string string) : settings :=
  {| TOKEN_FILE := default "token.json" (env !! "GMAIL_TOKEN_FILE");
     CREDENTIALS_FILE := default "credentials.json" (env !! "GMAIL_CREDENTIALS_FILE") |}.

(** What the code reads of a [Credentials] object. *)
Record credentials := {
  valid : bool;
  expired : bool;
  refresh_token : option string;
  to_json : string;
}.

(** The calls into the host and the client libraries; [None] is a call
    that raises. *)
Record client := {
  (** [os.path.exists(path)] *)
  path_exists : string → world → bool;
  (** [open(path, "w").write(text)]: the host after the write *)
  write_text : string → string → world → option world;
  (** [Credentials.from_authorized_user_file(path, SCOPES)] *)
  from_authorized_user_file : string → world → option credentials;
  (** [creds.refresh(Request())]: the object after the call *)
  refresh : credentials → option credentials;
  (** [InstalledAppFlow.from_client_secrets_file(path, SCOPES)] followed
      by [flow.run_local_server(port=0)] *)
  run_local_server : string → world → option credentials;
  (** [build("gmail", "v1", credentials=creds)] raises or not; the
      service is identified with its credentials *)
  build : credentials → bool;
  (** [service.users().messages().send(userId="me", body={"raw": raw})
      .execute()]: the [id] entry of the answer *)
  execute_send : credentials → string → option (option string);
}.

Inductive service_error :=
| CredentialsNotFound (path : string)
| ClientError (call : string)
| MessageError (e : error).

Inductive action :=
| ActExists (path : string) (found : bool)
| ActLoadToken (path : string)
| ActRefresh
| ActLogin (path : string)
| ActWrite (path text : string)
| ActBuild
| ActSystem (e : event)
| ActSend (raw : string).

(** A computation over the host: the calls made, the host it leaves,
    and an exception or a value. *)
Definition IO (A : Type) : Type := world → list action * world * (service_error + A).

#[global] Instance IO_ret : MRet IO := fun A a w => ([], w, inr a).

#[global] Instance IO_bind : MBind IO := fun A B f m w =>
  match m w with
  | (t, w', inr a) => let '(t', w'', r) := f a w' in (t ++ t', w'', r)
  | (t, w', inl e) => (t, w', inl e)
  end.

Definition throw {A} (e : service_error) : IO A := fun w => ([], w, inl e).

Definition actions {A} (r : list action * world * (service_error + A)) : list action :=
  fst (fst r).
Definition host_after {A} (r : list action * world * (service_error + A)) : world :=
  snd (fst r).
Definition answer {A} (r : list action * world * (service_error + A))
    : service_error + A := snd r.

Definition os_path_exists (cl : client) (path : string) : IO bool := fun w =>
  let b := path_exists cl path w in ([ActExists path b], w, inr b).

Definition load_token (cl : client) (path : string) : IO credentials := fun w =>
  ([ActLoadToken path], w,
   match from_authorized_user_file cl path w with
   | Some c => inr c
   | None => inl (ClientError "from_authorized_user_file")
   end).

Definition creds_refresh (cl : client) (c : credentials) : IO credentials := fun w =>
  ([ActRefresh], w,
   match refresh cl c with
   | Some c' => inr c'
   | None => inl (ClientError "refresh")
   end).

Definition login (cl : client) (path : string) : IO credentials := fun w =>
  ([ActLogin path], w,
   match run_local_server cl path w with
   | Some c => inr c
   | None => inl (ClientError "run_local_server")
   end).

Definition write_token (cl : client) (path text : string) : IO unit := fun w =>
  match write_text cl path text w with
  | Some w' => ([ActWrite path text], w', inr tt)
  | None => ([ActWrite path text], w, inl (ClientError "open"))
  end.

Definition build_service (cl : client) (c : credentials) : IO credentials := fun w =>
  ([ActBuild], w, if build cl c then inr c else inl (ClientError "build")).

(** [creds and creds.expired and creds.refresh_token] *)
Definition refreshable (creds : option credentials) : bool :=
  match creds with
  | Some c => expired c && Str.otruthy (refresh_token c)
  | None => false
  end.

(** [not creds or not creds.valid] *)
Definition unusable (creds : option credentials) : bool :=
  match creds with
  | Some c => negb (valid c)
  | None => true
  end.

(** Lines 39-63. *)
Definition get_gmail_service (s : settings) (cl : client) : IO credentials :=
  found ← os_path_exists cl (TOKEN_FILE s);
  creds ← (if found : bool
           then c ← load_token cl (TOKEN_FILE s); mret (Some c)
           else mret None);
  creds' ← (if unusable creds
            then
              c ← (if refreshable creds
                   then match creds with
                        | Some c => creds_refresh cl c
                        | None => throw (ClientError "refresh")
                        end
                   else
                     found' ← os_path_exists cl (CREDENTIALS_FILE s);
                     if found' : bool
                     then login cl (CREDENTIALS_FILE s)
                     else throw (CredentialsNotFound (CREDENTIALS_FILE s)));
              _ ← write_token cl (TOKEN_FILE s) (to_json c);
              mret (Some c)
            else mret creds);
  match creds' with
  | Some c => build_service cl c
  | None => throw (ClientError "build")
  end.

(** The attachment code runs on the host as authentication left it. *)
Definition run_message {A} (m : M A) : IO A := fun w =>
  let '(t, r) := m w in
  (map ActSystem t, w,
   match r with
   | Ok a => inr a
   | Err e => inl (MessageError e)
   end).

Definition messages_send (cl : client) (service : credentials) (raw : string)
    : IO (option string) := fun w =>
  ([ActSend raw], w,
   match execute_send cl service raw with
   | Some id => inr id
   | None => inl (ClientError "execute")
   end).

(** The answer of the tool: [{"ok": True, "message_id": sent.get("id")}] *)
Record response := { ok : bool; message_id : option string }.

(** Lines 172-199; [attachments or []] makes a missing list empty. *)
Definition send_gmail (token : N) (s : settings) (cl : client)
    (to_ subject_ body_ body_format_ : string)
    (attachments_ : option (list attachment_spec)) : IO response :=
  service ← get_gmail_service s cl;
  raw ← run_message
          (build_raw_email token
             {| to := to_; subject := subject_; body := body_;
                body_format := body_format_;
                attachments := default [] attachments_ |});
  sent ← messages_send cl service raw;
  mret {| ok := true; message_id := sent |}.

Definition is_send (a : action) : bool :=
  match a with ActSend _ => true | _ => false end.

Definition is_write (a : action) : bool :=
  match a with ActWrite _ _ => true | _ => false end.

Definition is_login (a : action) : bool :=
  match a with ActLogin _ => true | _ => false end.

Definition is_refresh (a : action) : bool :=
  match a with ActRefresh => true | _ => false end.

End Service.

(** ** Notions the properties are stated with *)

Module Spec.

(** The number of slashes a path starts with. *)
Fixpoint root_of (s : string) : nat :=
  match s with
  | String a s' => if Ascii.eqb a "/" then S (root_of s') else O
  | EmptyString => O
  end.

(** The names along a path, from the root down. *)
Definition components (s : string) : list string :=
  filter (fun c => Str.truthy c = true) (Str.split_on "/" s).

(** [p] is the directory [b] itself. *)
Definition same_path (b p : string) : Prop :=
  root_of p = root_of b ∧ components p = components b.

(** [p] lies strictly below the directory [b]. *)
Definition proper_descendant (b p : string) : Prop :=
  root_of p = root_of b ∧
  ∃ names, names ≠ [] ∧ components p = components b ++ names.

(** A filesystem root: [/] or [//]. *)
Definition is_root (s : string) : bool :=
  String.eqb s "/" || String.eqb s "//".

(** [p] continues [b] by a text that is not empty and does not start at
    a separator. *)
Definition extends_without_boundary (b p : string) : Prop :=
  ∃ a s, p = b +:+ String a s ∧ a ≠ "/"%char.

Definition is_alphabet (c : ascii) : bool :=
  bool_decide (is_Some (Base64.a2b c)).

Definition is_alphabet_or_pad (c : ascii) : bool :=
  is_alphabet c || Ascii.eqb c Base64.pad.

(** RFC 4648 base64: groups of four characters of the alphabet, the
    last group ending in no, one or two pad characters. *)
Fixpoint well_formed_base64 (s : string) : bool :=
  match s with
  | EmptyString => true
  | String a (String b (String c (String d r))) =>
      is_alphabet a && is_alphabet b &&
      match r with
      | EmptyString =>
          (is_alphabet c && is_alphabet_or_pad d)
          || (Ascii.eqb c Base64.pad && Ascii.eqb d Base64.pad)
      | _ => is_alphabet c && is_alphabet d && well_formed_base64 r
      end
  | _ => false
  end.

(** How many characters of [s] belong to the alphabet. *)
Fixpoint alphabet_count (s : string) : nat :=
  match s with
  | EmptyString => O
  | String a s' => ((if is_alphabet a then 1 else 0) + alphabet_count s')%nat
  end.

(** The configured base directory and size limit. *)
Definition base_dir_of (w : world) : string :=
  default "/shared" (environ w !! "ATTACHMENTS_BASE_DIR").

Definition max_mb_of (w : world) : option Z :=
  PyInt.int (default "20" (environ w !! "MAX_ATTACHMENT_MB")).

(** A dictionary value that counts: a falsy one is like a missing one. *)
Definition present (o : option string) : option string :=
  if Str.otruthy o then o else None.

(** The lookup of the size limit as it shows in a trace. *)
Definition limit_event (w : world) : event :=
  EvGetenv "MAX_ATTACHMENT_MB"
    (default "20" (environ w !! "MAX_ATTACHMENT_MB")).

Definition is_read_event (e : event) : bool :=
  match e with
  | EvRead _ => true
  | _ => false
  end.

(** A name along a path: not empty and free of separators. *)
Definition is_name (c : string) : Prop :=
  Str.truthy c = true ∧ Str.contains_char "/" c = false.

(** The text of the path of root [k] (one or two slashes) and names [cs]. *)
Definition canonical (k : nat) (cs : list string) : string :=
  Str.replicate_char k "/" +:+ Str.join "/" cs.

(** The event is a lookup of [ATTACHMENTS_BASE_DIR] that returned
    something else than [base]. *)
Definition base_lookup_differs (base : string) (e : event) : bool :=
  match e with
  | EvGetenv k v => String.eqb k "ATTACHMENTS_BASE_DIR" && negb (String.eqb v base)
  | _ => false
  end.

(** The exception a run ended with, if any. *)
Definition failure {A} (r : result A) : option error :=
  match r with
  | Ok _ => None
  | Err e => Some e
  end.

(** Every character, for properties checked by enumeration. *)
Definition all_ascii : list ascii := map ascii_of_nat (seq 0 256).

Definition forall_ascii (P : ascii -> bool) : bool := forallb P all_ascii.

Definition forall_ascii2 (P : ascii -> ascii -> bool) : bool :=
  forall_ascii (fun x => forall_ascii (P x)).

(** The four six-bit values of the bytes [x y z], as [encode_groups]
    computes them. *)
Definition sextet1 (x : ascii) : N := N.shiftr (N_of_ascii x) 2.

Definition sextet2 (x y : ascii) : N :=
  N.lor (N.shiftl (N.land (N_of_ascii x) 3) 4) (N.shiftr (N_of_ascii y) 4).

Definition sextet3 (y z : ascii) : N :=
  N.lor (N.shiftl (N.land (N_of_ascii y) 15) 2) (N.shiftr (N_of_ascii z) 6).

Definition sextet4 (z : ascii) : N := N.land (N_of_ascii z) 63.

(** The last sextet of a group of one byte and of a group of two. *)
Definition sextet2_last (x : ascii) : N := N.shiftl (N.land (N_of_ascii x) 3) 4.

Definition sextet3_last (y : ascii) : N := N.shiftl (N.land (N_of_ascii y) 15) 2.

(** A character the decoder reads as the value [v]. *)
Definition reads_as (c : ascii) (v : N) : bool :=
  negb (Ascii.eqb c Base64.pad)
  && bool_decide (Base64.a2b c = Some v).

(** A header value that is written as one ASCII line. *)
Definition header_safe (s : string) : bool :=
  Str.is_ascii s
  && negb (Str.contains_char "010" s)
  && negb (Str.contains_char "013" s).

(** The characters of a generated boundary. *)
Definition is_boundary_char (c : ascii) : bool :=
  Ascii.eqb c "=" || Ascii.eqb c "."
  || bool_decide (is_Some (PyInt.digit c)).

(** A line that cannot be taken for a delimiter: it does not start
    with a dash. *)
Definition no_dash (l : string) : bool := negb (Str.startswith "-" l).

(** The lines of the message built for the request of the round-trip
    property: boundary [b], body part of subtype [sub] whose encoded
    body has the lines [bl], then the attachment [a.txt]. *)
Definition text_header_lines (sub : string) : list string :=
  ["Content-Type: text/" +:+ sub +:+ "; charset=" +:+ dquote +:+ "utf-8" +:+ dquote;
   "MIME-Version: 1.0";
   "Content-Transfer-Encoding: base64"].

Definition hello_part_lines : list string :=
  ["Content-Type: text/plain";
   "MIME-Version: 1.0";
   "Content-Transfer-Encoding: base64";
   "Content-Disposition: attachment; filename=" +:+ dquote +:+ "a.txt" +:+ dquote;
   "";
   "aGVsbG8=";
   ""].

Definition container_header_lines (b to subject : string) : list string :=
  ["Content-Type: multipart/mixed; boundary=" +:+ dquote +:+ b +:+ dquote;
   "MIME-Version: 1.0";
   "To: " +:+ to;
   "Subject: " +:+ subject].

Definition hello_message_lines (b to subject sub : string)
    (bl : list string) : list string :=
  container_header_lines b to subject
  ++ "" :: ("--" +:+ b) :: (text_header_lines sub ++ "" :: bl)
  ++ ("--" +:+ b) :: hello_part_lines
  ++ ["--" +:+ b +:+ "--"; ""].

(** The candidates of [_make_boundary] in the order it tries them. *)
Definition candidate (boundary : string) (k : nat) : string :=
  match k with
  | O => boundary
  | S j => boundary +:+ "." +:+ Generator.str_N (N.of_nat j)
  end.

(** The two delimiter lines of the boundary [b]. *)
Definition hits (b l : string) : Prop :=
  l = "--" +:+ b ∨ l = "--" +:+ b +:+ "--".

(** The event touches the filesystem. *)
Definition touches_filesystem (e : event) : bool :=
  match e with
  | EvGetenv _ _ => false
  | EvGetsize _ | EvRead _ => true
  end.

(** The containment test as [_safe_read_file] applies it: passed, or not
    made because no base directory is given. *)
Definition containment_ok (w : world) (path : string)
    (base_dir : option string) : bool :=
  negb (Str.otruthy base_dir)
  || inside (PosixPath.abspath (cwd w) (default "" base_dir))
       (PosixPath.abspath (cwd w) path).

(** A name that [normpath] keeps as it is: not empty, no separator, and
    neither [.] nor [..]. *)
Definition is_plain_name (c : string) : bool :=
  Str.truthy c && negb (Str.contains_char "/" c)
  && negb (String.eqb c ".") && negb (String.eqb c "..").

(** A file name that is read back from between the quotes of line 163
    as it is: not empty, ASCII, no quote, no backslash, no blank at
    either end. *)
Definition is_plain_filename (s : string) : bool :=
  Str.truthy s && Str.is_ascii s
  && negb (Str.contains_char "034" s) && negb (Str.contains_char "092" s)
  && String.eqb (Str.strip s) s.

End Spec.

(** ** Worlds and requests used as examples *)

Module Examples.

(** An empty environment and an empty filesystem. *)
Definition bare_world : world :=
  {| environ := ∅;
     cwd := "/app";
     lookup_path := fun _ => None;
     guess_type := fun _ => None |}.

(** The sandbox is switched off by an empty [ATTACHMENTS_BASE_DIR]. *)
Definition unsandboxed_world : world :=
  {| environ := {["ATTACHMENTS_BASE_DIR" := ""]};
     cwd := "/app";
     lookup_path := fun p =>
       if String.eqb p "/etc/passwd"
       then Some {| st_size := 5; content := Some "root:" |}
       else None;
     guess_type := fun _ => None |}.

(** With [MAX_ATTACHMENT_MB = 0] nothing but an empty file passes. *)
Definition tiny_limit_world : world :=
  {| environ := {["MAX_ATTACHMENT_MB" := "0"]};
     cwd := "/app";
     lookup_path := fun p =>
       if String.eqb p "/shared/empty.bin"
       then Some {| st_size := 0; content := Some "" |}
       else if String.eqb p "/shared/one.bin"
       then Some {| st_size := 1; content := Some "x" |}
       else None;
     guess_type := fun _ => None |}.

(** The standard table of [mimetypes] for the suffixes used below. *)
Definition std_world : world :=
  {| environ := ∅;
     cwd := "/app";
     lookup_path := fun p =>
       if String.eqb p "/shared/report.pdf"
       then Some {| st_size := 4; content := Some "%PDF" |}
       else None;
     guess_type := fun f =>
       if String.eqb f "a.txt" then Some "text/plain"
       else if String.eqb f "report.pdf" then Some "application/pdf"
       else None |}.

(** [{filename: "a.txt", content_base64: base64("hello")}] *)
Definition hello_attachment : attachment_spec :=
  <["filename" := "a.txt"]>
  (<["content_base64" := Base64.b64encode "hello"]> ∅).

Definition hello_request : send_request :=
  {| to := "a@example.com";
     subject := "Hi";
     body := "see attachment";
     body_format := "plain";
     attachments := [hello_attachment] |}.

(** A size limit that is no integer literal. *)
Definition bad_limit_world : world :=
  {| environ := {["MAX_ATTACHMENT_MB" := "20MB"]};
     cwd := "/app";
     lookup_path := fun p =>
       if String.eqb p "/shared/empty.bin"
       then Some {| st_size := 0; content := Some "" |}
       else None;
     guess_type := fun _ => None |}.

(** Credentials a login or a refresh gives. *)
Definition fresh_credentials : Service.credentials :=
  {| Service.valid := true; Service.expired := false;
     Service.refresh_token := Some "1//refresh"; Service.to_json := "{}" |}.

(** A host on its first run: no token file yet, the client secrets in
    place, every call to Google answering. *)
Definition first_run_client : Service.client :=
  {| Service.path_exists := fun p _ => String.eqb p "credentials.json";
     Service.write_text := fun _ _ w => Some w;
     Service.from_authorized_user_file := fun _ _ => None;
     Service.refresh := fun _ => None;
     Service.run_local_server := fun _ _ => Some fresh_credentials;
     Service.build := fun _ => true;
     Service.execute_send := fun _ _ => Some (Some "18c2a") |}.

(** A host without token file and without client secrets. *)
Definition unconfigured_client : Service.client :=
  {| Service.path_exists := fun _ _ => false;
     Service.write_text := fun _ _ w => Some w;
     Service.from_authorized_user_file := fun _ _ => None;
     Service.refresh := fun _ => None;
     Service.run_local_server := fun _ _ => None;
     Service.build := fun _ => true;
     Service.execute_send := fun _ _ => None |}.

End Examples.

(** * Properties *)

Import Spec.

(** ** Running monadic code *)

Lemma run_bind {A B} (m : M A) (f : A -> M B) (w : world) :
  (m ≫= f) w =
  match m w with
  | (t, Ok a) => let '(t', r) := f a w in (t ++ t', r)
  | (t, Err e) => (t, Err e)
  end.
Proof. reflexivity. Qed.

Lemma run_ret {A} (a : A) (w : world) : (mret a : M A) w = ([], Ok a).
Proof. reflexivity. Qed.

Lemma run_raise {A} (e : error) (w : world) : (raise e : M A) w = ([], Err e).
Proof. reflexivity. Qed.

(** ** C6 *)

Lemma resolve_run path w :
  _resolve_attachment_path path w =
  ([EvGetenv "ATTACHMENTS_BASE_DIR" (Spec.base_dir_of w)],
   Ok (if Str.truthy path && negb (PosixPath.isabs path)
       then PosixPath.join (Spec.base_dir_of w) path else path)).
Proof. reflexivity. Qed.

Lemma isabs_truthy path : PosixPath.isabs path = true -> Str.truthy path = true.
Proof. destruct path; [discriminate | reflexivity]. Qed.

(** C6 as stated would join the empty path under the base directory. *)
Lemma resolve_path_joins_all_relative_refuted :
  ¬ (∀ (w : world) (path : string),
       outcome (_resolve_attachment_path path w) =
       Ok (if PosixPath.isabs path then path
           else PosixPath.join (Spec.base_dir_of w) path)).
Proof.
  intros H. specialize (H Examples.bare_world ""). vm_compute in H. discriminate.
Qed.

(** C6 (amended): for every input string, [_resolve_attachment_path]
    returns an absolute path unchanged, returns every non-empty relative
    path joined under the configured base directory (the value of
    [ATTACHMENTS_BASE_DIR], default [/shared]) and returns the empty path
    unchanged; its only system call is the lookup of that variable, so it
    validates nothing on the filesystem. *)
Theorem resolve_attachment_path_spec (w : world) (path : string) :
  _resolve_attachment_path path w =
  ([EvGetenv "ATTACHMENTS_BASE_DIR" (Spec.base_dir_of w)],
   Ok (if PosixPath.isabs path then path
       else if Str.truthy path then PosixPath.join (Spec.base_dir_of w) path
       else path)).
Proof.
  rewrite resolve_run. destruct (PosixPath.isabs path) eqn:Habs.
  - now rewrite andb_false_r.
  - rewrite andb_true_r. reflexivity.
Qed.

(** ** The decision policy of attachment resolution *)

Lemma resolve_attachment_cases (att : attachment_spec) (w : world) :
  resolve_attachment att w =
  match Str.otruthy (att !! "content_base64"), Str.otruthy (att !! "path") with
  | true, true => ([], Err ConflictingSourceError)
  | false, true =>
      path_branch (att !! "filename") (att !! "mime_type")
        (default "" (att !! "path")) w
  | true, false =>
      if Str.otruthy (att !! "filename")
      then base64_branch (att !! "filename") (att !! "mime_type")
             (default "" (att !! "content_base64")) w
      else ([], Err MissingFilenameError)
  | false, false => ([], Err MissingSourceError)
  end.
Proof.
  unfold resolve_attachment.
  destruct (Str.otruthy (att !! "content_base64")) eqn:Hc,
           (Str.otruthy (att !! "path")) eqn:Hp; cbn [andb]; try reflexivity.
  unfold base64_branch.
  destruct (Str.otruthy (att !! "filename")); reflexivity.
Qed.

(** C3: attachment resolution decides in this order: both sources truthy
    gives ConflictingSourceError before anything else is looked at (no
    system call is made); only [path] gives the path branch; only
    [content_base64] gives MissingFilenameError when there is no filename
    and the base64 branch otherwise; no source gives MissingSourceError. *)
Theorem resolve_attachment_policy (att : attachment_spec) (w : world) :
  resolve_attachment att w =
  match Str.otruthy (att !! "content_base64"), Str.otruthy (att !! "path") with
  | true, true => ([], Err ConflictingSourceError)
  | false, true =>
      path_branch (att !! "filename") (att !! "mime_type")
        (default "" (att !! "path")) w
  | true, false =>
      if Str.otruthy (att !! "filename")
      then base64_branch (att !! "filename") (att !! "mime_type")
             (default "" (att !! "content_base64")) w
      else ([], Err MissingFilenameError)
  | false, false => ([], Err MissingSourceError)
  end.
Proof.
  unfold resolve_attachment.
  destruct (Str.otruthy (att !! "content_base64")) eqn:Hc,
           (Str.otruthy (att !! "path")) eqn:Hp; cbn [andb]; try reflexivity.
  unfold base64_branch.
  destruct (Str.otruthy (att !! "filename")); reflexivity.
Qed.

(** ** Empty strings *)

Lemma otruthy_present o : Str.otruthy (present o) = Str.otruthy o.
Proof. destruct o as [[|]|]; reflexivity. Qed.

Lemma default_present o : default "" (present o) = default "" o.
Proof. destruct o as [[|]|]; reflexivity. Qed.

Lemma path_branch_present f m p :
  path_branch (present f) (present m) p = path_branch f m p.
Proof. destruct f as [[|]|], m as [[|]|]; reflexivity. Qed.

Lemma base64_branch_present f m c :
  base64_branch (present f) (present m) c = base64_branch f m c.
Proof. destruct f as [[|]|], m as [[|]|]; reflexivity. Qed.

Lemma resolve_attachment_present (a1 a2 : attachment_spec) :
  (∀ k, present (a1 !! k) = present (a2 !! k)) →
  resolve_attachment a1 = resolve_attachment a2.
Proof.
  intros H. unfold resolve_attachment.
  rewrite <- (otruthy_present (a1 !! "content_base64")),
          <- (otruthy_present (a1 !! "path")),
          <- (default_present (a1 !! "path")),
          <- (default_present (a1 !! "content_base64")),
          <- (path_branch_present (a1 !! "filename")),
          <- (base64_branch_present (a1 !! "filename")).
  rewrite !H.
  now rewrite !otruthy_present, !default_present, path_branch_present,
    base64_branch_present.
Qed.

Lemma present_insert_empty (att : attachment_spec) (k j : string) :
  present (<[k := ""]> att !! j) = present (delete k att !! j).
Proof.
  destruct (decide (k = j)) as [->|Hne].
  - now rewrite lookup_insert_eq, lookup_delete_eq.
  - now rewrite lookup_insert_ne, lookup_delete_ne.
Qed.



(** ** The sandboxed read, step by step *)

Lemma safe_read_run (path : string) (base_dir : option string) (w : world) :
  _safe_read_file path base_dir w =
  let p := PosixPath.abspath (cwd w) path in
  if Str.otruthy base_dir
     && negb (inside (PosixPath.abspath (cwd w) (default "" base_dir)) p)
  then ([], Err (PathEscapeError p))
  else
    match max_mb_of w with
    | None =>
        ([limit_event w],
         Err (InvalidLimitError (default "20" (environ w !! "MAX_ATTACHMENT_MB"))))
    | Some max_mb =>
        match lookup_path w p with
        | None => ([limit_event w; EvGetsize p], Err (AttachmentReadError p))
        | Some n =>
            if st_size n >? max_mb * 1024 * 1024
            then ([limit_event w; EvGetsize p],
                  Err (AttachmentTooLargeError (st_size n) max_mb))
            else ([limit_event w; EvGetsize p; EvRead p],
                  match content n with
                  | Some d => Ok d
                  | None => Err (AttachmentReadError p)
                  end)
        end
    end.
Proof.
  unfold _safe_read_file, max_mb_of, limit_event, py_int.
  cbv [mbind M_bind mret M_ret raise os_path_abspath os_getenv os_path_getsize read_file].
  destruct (Str.otruthy base_dir) eqn:Hb; cbn [andb].
  - destruct (inside _ _) eqn:Hin; cbn [negb]; [|reflexivity].
    destruct (PyInt.int _) as [max_mb|]; [|reflexivity].
    destruct (lookup_path w _) as [n|] eqn:Hn; [|reflexivity].
    destruct (st_size n >? _)%Z; [reflexivity|].
    rewrite ?Hn. destruct n as [sz [d|]]; reflexivity.
  - destruct (PyInt.int _) as [max_mb|]; [|reflexivity].
    destruct (lookup_path w _) as [n|] eqn:Hn; [|reflexivity].
    destruct (st_size n >? _)%Z; [reflexivity|].
    rewrite ?Hn. destruct n as [sz [d|]]; reflexivity.
Qed.


(** ** Strings: prefixes, splitting and joining *)

Lemma sapp_cons a s t : String a s +:+ t = String a (s +:+ t).
Proof. reflexivity. Qed.

Lemma sapp_nil_l s : "" +:+ s = s.
Proof. reflexivity. Qed.

Lemma sapp_nil_r s : s +:+ "" = s.
Proof. induction s as [|a s IH]; [reflexivity|]. now rewrite sapp_cons, IH. Qed.

Lemma sapp_assoc s t u : (s +:+ t) +:+ u = s +:+ t +:+ u.
Proof. induction s as [|a s IH]; [reflexivity|]. now rewrite !sapp_cons, IH. Qed.

Lemma sapp_eq_self b x : b +:+ x = b → x = "".
Proof.
  induction b as [|a b IH]; [trivial|].
  rewrite sapp_cons. intros [= H]. auto.
Qed.

Lemma startswith_app x y : Str.startswith x (x +:+ y) = true.
Proof.
  induction x as [|a x IH]; [reflexivity|].
  rewrite sapp_cons. cbn [Str.startswith Str.split_on Str.contains_char Str.join]. now rewrite Ascii.eqb_refl, IH.
Qed.

Lemma startswith_inv pre s : Str.startswith pre s = true → ∃ r, s = pre +:+ r.
Proof.
  revert s. induction pre as [|a pre IH]; intros s H.
  - now exists s.
  - destruct s as [|b s]; [discriminate|]. cbn [Str.startswith] in H.
    apply andb_true_iff in H as [Hab Hs]. apply Ascii.eqb_eq in Hab as ->.
    destruct (IH _ Hs) as [r ->]. now exists r.
Qed.

Lemma startswith_app_same b x y :
  Str.startswith (b +:+ x) (b +:+ y) = Str.startswith x y.
Proof.
  induction b as [|a b IH]; [reflexivity|].
  rewrite !sapp_cons. cbn [Str.startswith Str.split_on Str.contains_char Str.join]. now rewrite Ascii.eqb_refl, IH.
Qed.

Lemma split_on_nonempty c s : Str.split_on c s ≠ [].
Proof.
  destruct s as [|a s]; cbn [Str.split_on]; [discriminate|].
  destruct (Ascii.eqb a c); [discriminate|]. now destruct (Str.split_on c s).
Qed.

Lemma split_on_app c x y :
  Str.split_on c (x +:+ String c y) = Str.split_on c x ++ Str.split_on c y.
Proof.
  induction x as [|a x IH].
  - rewrite sapp_nil_l. cbn [Str.split_on app]. now rewrite Ascii.eqb_refl.
  - rewrite sapp_cons. cbn [Str.startswith Str.split_on Str.contains_char Str.join]. rewrite IH.
    destruct (Ascii.eqb a c); [reflexivity|].
    pose proof (split_on_nonempty c x).
    now destruct (Str.split_on c x).
Qed.

Lemma split_on_no_sep c s :
  Str.contains_char c s = false → Str.split_on c s = [s].
Proof.
  induction s as [|a s IH]; [reflexivity|]. cbn [Str.startswith Str.split_on Str.contains_char Str.join].
  intros H. apply orb_false_iff in H as [Ha Hs].
  now rewrite Ha, (IH Hs).
Qed.

Lemma split_on_Forall c s :
  Forall (λ x, Str.contains_char c x = false) (Str.split_on c s).
Proof.
  induction s as [|a s IH]; cbn [Str.split_on]; [now constructor|].
  destruct (Ascii.eqb a c) eqn:Hac; [now constructor|].
  pose proof (split_on_nonempty c s).
  destruct (Str.split_on c s) as [|h t]; [done|].
  inversion IH; subst. constructor; [|assumption]. cbn [Str.startswith Str.split_on Str.contains_char Str.join]. now rewrite Hac.
Qed.

Lemma join_cons sep x l :
  l ≠ [] → Str.join sep (x :: l) = x +:+ sep +:+ Str.join sep l.
Proof. now destruct l. Qed.

Lemma join_app sep l1 l2 :
  l1 ≠ [] → l2 ≠ [] →
  Str.join sep (l1 ++ l2) = Str.join sep l1 +:+ sep +:+ Str.join sep l2.
Proof.
  intros H1 H2. induction l1 as [|x l1 IH]; [done|].
  destruct l1 as [|y l1].
  - cbn [app]. now rewrite join_cons.
  - rewrite <- app_comm_cons, join_cons by done.
    rewrite IH by done. rewrite (join_cons sep x (y :: l1)) by done.
    now rewrite !sapp_assoc.
Qed.

(** ** Canonical absolute paths *)

Lemma Forall_removelast {A} (P : A → Prop) (l : list A) :
  Forall P l → Forall P (removelast l).
Proof.
  induction 1 as [|x l Hx Hl IH]; [constructor|].
  cbn [removelast]. destruct l; [constructor|]. now constructor.
Qed.

Lemma normpath_step_names k acc comp :
  Forall is_name acc → Str.contains_char "/" comp = false →
  Forall is_name (PosixPath.normpath_step k acc comp).
Proof.
  intros Hacc Hcomp. unfold PosixPath.normpath_step.
  destruct (String.eqb comp "") eqn:He; [assumption|].
  cbn [orb]. destruct (String.eqb comp "."); [assumption|].
  destruct (_ || _).
  - apply Forall_app. split; [assumption|].
    constructor; [|constructor]. split; [|assumption].
    destruct comp; [discriminate He | reflexivity].
  - now apply Forall_removelast.
Qed.

Lemma normpath_fold_names k comps acc :
  Forall is_name acc →
  Forall (λ c, Str.contains_char "/" c = false) comps →
  Forall is_name (fold_left (PosixPath.normpath_step k) comps acc).
Proof.
  revert acc. induction comps as [|c comps IH]; intros acc Hacc Hc; [assumption|].
  inversion Hc; subst. cbn [fold_left]. apply IH; [|assumption].
  now apply normpath_step_names.
Qed.

Lemma initial_slashes_abs s :
  PosixPath.isabs s = true →
  PosixPath.initial_slashes s = 1%nat ∨ PosixPath.initial_slashes s = 2%nat.
Proof.
  unfold PosixPath.isabs, PosixPath.sep, PosixPath.initial_slashes.
  intros ->. destruct (_ && _); auto.
Qed.

Lemma normpath_canonical s :
  PosixPath.isabs s = true →
  ∃ k cs, (k = 1%nat ∨ k = 2%nat) ∧ Forall is_name cs
          ∧ PosixPath.normpath s = canonical k cs.
Proof.
  intros Habs.
  exists (PosixPath.initial_slashes s),
    (fold_left (PosixPath.normpath_step (PosixPath.initial_slashes s))
       (Str.split_on "/" s) []).
  split; [now apply initial_slashes_abs|]. split.
  - apply normpath_fold_names; [constructor | apply split_on_Forall].
  - unfold PosixPath.normpath. rewrite (isabs_truthy _ Habs). cbn [negb].
    fold (canonical (PosixPath.initial_slashes s)
            (fold_left (PosixPath.normpath_step (PosixPath.initial_slashes s))
               (Str.split_on "/" s) [])).
    destruct (initial_slashes_abs s Habs) as [-> | ->]; reflexivity.
Qed.

Lemma join_abs cwd path :
  PosixPath.isabs cwd = true → PosixPath.isabs (PosixPath.join cwd path) = true.
Proof.
  intros Hc. unfold PosixPath.join.
  destruct (Str.startswith PosixPath.sep path) eqn:Hp; [exact Hp|].
  destruct cwd as [|a cwd]; [discriminate|].
  destruct (_ || _); rewrite sapp_cons; exact Hc.
Qed.

Lemma abspath_canonical cwd path :
  PosixPath.isabs cwd = true →
  ∃ k cs, (k = 1%nat ∨ k = 2%nat) ∧ Forall is_name cs
          ∧ PosixPath.abspath cwd path = canonical k cs.
Proof.
  intros Hc. unfold PosixPath.abspath.
  destruct (Str.startswith "/" path) eqn:Hp.
  - now apply normpath_canonical.
  - apply normpath_canonical. now apply join_abs.
Qed.


Lemma root_of_slashes k s :
  root_of (Str.replicate_char k "/" +:+ s) = (k + root_of s)%nat.
Proof.
  induction k as [|k IH]; [reflexivity|].
  cbn [Str.replicate_char]. rewrite sapp_cons. cbn [root_of].
  rewrite Ascii.eqb_refl, IH. reflexivity.
Qed.

Lemma root_of_name_app c s : is_name c → root_of (c +:+ s) = 0%nat.
Proof.
  intros [Ht Hs]. destruct c as [|a c]; [discriminate|].
  rewrite sapp_cons. cbn [root_of]. cbn [Str.contains_char] in Hs.
  apply orb_false_iff in Hs as [-> _]. reflexivity.
Qed.

Lemma root_of_join_app cs s :
  Forall is_name cs → cs ≠ [] → root_of (Str.join "/" cs +:+ s) = 0%nat.
Proof.
  intros Hcs Hne. destruct cs as [|c cs]; [done|].
  inversion Hcs; subst. destruct cs as [|c' cs].
  - now apply root_of_name_app.
  - rewrite join_cons by done. rewrite sapp_assoc. now apply root_of_name_app.
Qed.

Lemma root_of_canonical_app k cs s :
  Forall is_name cs → cs ≠ [] → root_of (canonical k cs +:+ s) = k.
Proof.
  intros Hcs Hne. unfold canonical. rewrite sapp_assoc, root_of_slashes.
  rewrite root_of_join_app by assumption. lia.
Qed.

Lemma root_of_canonical k cs : Forall is_name cs → root_of (canonical k cs) = k.
Proof.
  intros Hcs. destruct cs as [|c cs].
  - unfold canonical. rewrite root_of_slashes. cbn. lia.
  - rewrite <- (sapp_nil_r (canonical k (c :: cs))).
    now apply root_of_canonical_app.
Qed.

Lemma components_app x y :
  components (x +:+ String "/" y) = components x ++ components y.
Proof. unfold components. now rewrite split_on_app, filter_app. Qed.

Lemma components_empty : components "" = [].
Proof. reflexivity. Qed.

Lemma components_slashes k s :
  components (Str.replicate_char k "/" +:+ s) = components s.
Proof.
  induction k as [|k IH]; [reflexivity|].
  cbn [Str.replicate_char]. rewrite sapp_cons.
  change (String "/" (Str.replicate_char k "/" +:+ s))
    with ("" +:+ String "/" (Str.replicate_char k "/" +:+ s)).
  now rewrite components_app, components_empty, IH.
Qed.

Lemma components_name c : is_name c → components c = [c].
Proof.
  intros [Ht Hs]. unfold components. rewrite (split_on_no_sep _ _ Hs).
  now rewrite filter_cons_True.
Qed.

Lemma components_join cs :
  Forall is_name cs → components (Str.join "/" cs) = cs.
Proof.
  induction 1 as [|c cs Hc Hcs IH]; [reflexivity|].
  destruct cs as [|c' cs].
  - now apply components_name.
  - rewrite join_cons by done.
    change ("/" +:+ Str.join "/" (c' :: cs)) with (String "/" (Str.join "/" (c' :: cs))).
    now rewrite components_app, IH, components_name.
Qed.

Lemma components_canonical k cs :
  Forall is_name cs → components (canonical k cs) = cs.
Proof. intros H. unfold canonical. now rewrite components_slashes, components_join. Qed.

Lemma canonical_app k cb ext :
  cb ≠ [] → ext ≠ [] →
  canonical k (cb ++ ext) = (canonical k cb +:+ PosixPath.sep) +:+ Str.join "/" ext.
Proof.
  intros Hb He. unfold canonical, PosixPath.sep.
  rewrite join_app by assumption. now rewrite !sapp_assoc.
Qed.

(** On canonical paths the test of the code is the order on paths. *)
Lemma inside_canonical kb cb kp cp :
  Forall is_name cb → Forall is_name cp → cb ≠ [] →
  inside (canonical kb cb) (canonical kp cp) = true
  ↔ kp = kb ∧ cb `prefix_of` cp.
Proof.
  intros Hb Hp Hne. unfold inside. rewrite orb_true_iff. split.
  - intros [Heq | Hpre].
    + apply String.eqb_eq in Heq.
      pose proof (f_equal root_of Heq) as Hr.
      pose proof (f_equal components Heq) as Hc.
      rewrite !root_of_canonical in Hr by assumption.
      rewrite !components_canonical in Hc by assumption.
      split; [assumption|]. exists []. now rewrite app_nil_r.
    + apply startswith_inv in Hpre as [r Hr].
      rewrite sapp_assoc in Hr. unfold PosixPath.sep in Hr.
      pose proof (f_equal root_of Hr) as Hroot.
      rewrite root_of_canonical, root_of_canonical_app in Hroot by assumption.
      pose proof (f_equal components Hr) as Hc.
      change ("/" +:+ r) with (String "/" r) in Hc.
      rewrite components_app, !components_canonical in Hc by assumption.
      split; [assumption|]. now exists (components r).
  - intros [-> [ext ->]]. destruct ext as [|e ext].
    + left. rewrite app_nil_r. apply String.eqb_refl.
    + right. rewrite canonical_app by done. apply startswith_app.
Qed.

Lemma order_canonical kb cb kp cp :
  Forall is_name cb → Forall is_name cp →
  same_path (canonical kb cb) (canonical kp cp)
  ∨ proper_descendant (canonical kb cb) (canonical kp cp)
  ↔ kp = kb ∧ cb `prefix_of` cp.
Proof.
  intros Hb Hp. unfold same_path, proper_descendant.
  rewrite !root_of_canonical, !components_canonical by assumption. split.
  - intros [[Hr Hc] | [Hr (names & _ & Hc)]]; (split; [assumption|]).
    + exists []. now rewrite app_nil_r.
    + now exists names.
  - intros [Hr [ext Hc]]. destruct ext as [|e ext].
    + left. rewrite app_nil_r in Hc. auto.
    + right. split; [assumption|]. now exists (e :: ext).
Qed.


(** ** The sandbox *)




(** C9 as stated covers the empty base directory, whose absolute form is
    the working directory and for which nothing is rejected. *)
Lemma no_prefix_confusion_refuted :
  ¬ (∀ (w : world) (path base_dir : string),
       extends_without_boundary (PosixPath.abspath (cwd w) base_dir)
         (PosixPath.abspath (cwd w) path) →
       ∃ q, outcome (_safe_read_file path (Some base_dir) w)
            = Err (PathEscapeError q)).
Proof.
  intros H.
  destruct (H Examples.bare_world "/appevil/f.txt" "") as [q Hq].
  - exists "e"%char, "vil/f.txt". split; [reflexivity | discriminate].
  - vm_compute in Hq. discriminate.
Qed.

Lemma inside_extends b a s : a ≠ "/"%char → inside b (b +:+ String a s) = false.
Proof.
  intros Ha. unfold inside. apply orb_false_iff. split.
  - apply String.eqb_neq. intros H. apply sapp_eq_self in H. discriminate.
  - rewrite startswith_app_same. unfold PosixPath.sep. cbn [Str.startswith].
    apply andb_false_intro1. apply Ascii.eqb_neq. congruence.
Qed.

(** C9 (amended): the containment test is no plain string-prefix test:
    for every non-empty base directory [b] and every path [p] whose
    absolute form continues the absolute form of [b] by text that does not
    start at a path separator (as [/sharedevil/f.txt] does for [/shared]),
    the sandboxed read rejects [p] with PathEscapeError before any
    system call. *)
Theorem no_prefix_confusion (w : world) (path base_dir : string) :
  Str.truthy base_dir = true →
  extends_without_boundary (PosixPath.abspath (cwd w) base_dir)
    (PosixPath.abspath (cwd w) path) →
  _safe_read_file path (Some base_dir) w
  = ([], Err (PathEscapeError (PosixPath.abspath (cwd w) path))).
Proof.
  intros Hbase (a & s & Hp & Ha).
  rewrite safe_read_run. cbn zeta. cbn [Str.otruthy default from_option id].
  rewrite Hbase, Hp, inside_extends by assumption. reflexivity.
Qed.

Lemma no_prefix_confusion_witness :
  _safe_read_file "/sharedevil/f.txt" (Some "/shared") Examples.bare_world
  = ([], Err (PathEscapeError "/sharedevil/f.txt")).
Proof.
  apply (no_prefix_confusion Examples.bare_world "/sharedevil/f.txt" "/shared").
  - reflexivity.
  - exists "e"%char, "vil/f.txt". split; [reflexivity | discriminate].
Defined.


(** ** The size limit *)




(** ** One base directory *)

Lemma mime_type_or_guess_run m f w :
  mime_type_or_guess m f w =
  ([], Ok (if Str.otruthy m then default "" m else or_octet_stream (guess_type w f))).
Proof. unfold mime_type_or_guess. destruct (Str.otruthy m); reflexivity. Qed.

Lemma safe_read_trace path base_dir base w :
  existsb (base_lookup_differs base) (trace (_safe_read_file path base_dir w)) = false.
Proof.
  rewrite safe_read_run. cbn zeta.
  destruct (_ && _); [reflexivity|].
  destruct (max_mb_of w); [|reflexivity].
  destruct (lookup_path w _) as [n|]; [|reflexivity].
  destruct (st_size n >? _); reflexivity.
Qed.

Lemma path_branch_run f m path w :
  path_branch f m path w =
  let base := base_dir_of w in
  let resolved :=
    if Str.truthy path && negb (PosixPath.isabs path)
    then PosixPath.join base path else path in
  let filename := if Str.otruthy f then default "" f else PosixPath.basename resolved in
  let mime_type :=
    if Str.otruthy m then default "" m
    else or_octet_stream (guess_type w filename) in
  let ev := EvGetenv "ATTACHMENTS_BASE_DIR" base in
  match _safe_read_file resolved (Some base) w with
  | (t, Ok data) =>
      (ev :: ev :: t,
       Ok {| ra_filename := filename; ra_mime_type := mime_type; ra_data := data |})
  | (t, Err e) => (ev :: ev :: t, Err e)
  end.
Proof.
  unfold path_branch. rewrite run_bind, resolve_run.
  rewrite run_bind, mime_type_or_guess_run.
  rewrite run_bind. cbn [os_getenv]. fold (base_dir_of w).
  rewrite run_bind.
  destruct (_safe_read_file _ _ w) as [t [data|e]]; cbn zeta.
  - rewrite run_ret. cbn [app]. now rewrite app_nil_r.
  - reflexivity.
Qed.

(** C4: for every path-based attachment, in one run with a fixed
    environment, the directory under which [_resolve_attachment_path]
    joins a relative path and the base directory handed to the sandboxed
    read of that attachment are the same value, that of
    [ATTACHMENTS_BASE_DIR] (default [/shared]); every lookup of the
    variable in the run returns it. *)
Theorem single_base_directory (att : attachment_spec) (w : world) (path : string) :
  att !! "path" = Some path →
  Str.truthy path = true →
  Str.otruthy (att !! "content_base64") = false →
  ∃ filename mime_type,
    _resolve_attachment_path path w
    = ([EvGetenv "ATTACHMENTS_BASE_DIR" (base_dir_of w)],
       Ok (if PosixPath.isabs path then path
           else PosixPath.join (base_dir_of w) path))
    ∧ outcome (resolve_attachment att w)
      = match outcome (_safe_read_file
                         (if PosixPath.isabs path then path
                          else PosixPath.join (base_dir_of w) path)
                         (Some (base_dir_of w)) w) with
        | Ok data =>
            Ok {| ra_filename := filename; ra_mime_type := mime_type;
                  ra_data := data |}
        | Err e => Err e
        end
    ∧ existsb (base_lookup_differs (base_dir_of w))
        (trace (resolve_attachment att w)) = false.
Proof.
  intros Hpath Htruthy Hc.
  rewrite resolve_attachment_cases, Hc, Hpath. cbn [Str.otruthy default from_option id].
  rewrite Htruthy, path_branch_run. cbn zeta. rewrite Htruthy. cbn [andb].
  assert ((if negb (PosixPath.isabs path)
           then PosixPath.join (base_dir_of w) path else path)
          = (if PosixPath.isabs path then path
             else PosixPath.join (base_dir_of w) path)) as ->
    by now destruct (PosixPath.isabs path).
  eexists _, _. split; [|split].
  - rewrite resolve_run, Htruthy. cbn [andb].
    now destruct (PosixPath.isabs path).
  - destruct (_safe_read_file _ _ w) as [t [data|e]]; reflexivity.
  - pose proof (safe_read_trace
                  (if PosixPath.isabs path then path
                   else PosixPath.join (base_dir_of w) path)
                  (Some (base_dir_of w)) (base_dir_of w) w) as Ht.
    destruct (_safe_read_file _ _ w) as [t [data|e]];
      cbn [trace fst existsb base_lookup_differs] in *;
      rewrite !String.eqb_refl, Ht; reflexivity.
Qed.

Lemma single_base_directory_witness :
  ∃ filename mime_type,
    _resolve_attachment_path "report.pdf" Examples.std_world
    = ([EvGetenv "ATTACHMENTS_BASE_DIR" "/shared"], Ok "/shared/report.pdf")
    ∧ outcome (resolve_attachment {["path" := "report.pdf"]} Examples.std_world)
      = match outcome (_safe_read_file "/shared/report.pdf" (Some "/shared")
                         Examples.std_world) with
        | Ok data =>
            Ok {| ra_filename := filename; ra_mime_type := mime_type;
                  ra_data := data |}
        | Err e => Err e
        end
    ∧ existsb (base_lookup_differs "/shared")
        (trace (resolve_attachment {["path" := "report.pdf"]} Examples.std_world))
      = false.
Proof.
  apply (single_base_directory {["path" := "report.pdf"]} Examples.std_world
           "report.pdf"); reflexivity.
Defined.


(** ** Decoding a base64 attachment *)

(** C5 as stated: [!!!!] is no base64 text, yet it is decoded (to no
    bytes) and the attachment is accepted. *)
Lemma malformed_base64_rejected_refuted :
  ¬ (∀ (att : attachment_spec) (w : world) (s : string),
       att !! "content_base64" = Some s →
       Str.truthy s = true →
       Str.otruthy (att !! "path") = false →
       Str.otruthy (att !! "filename") = true →
       well_formed_base64 s = false →
       outcome (resolve_attachment att w) = Err InvalidBase64Error).
Proof.
  intros H.
  specialize (H (<["filename" := "a.bin"]> (<["content_base64" := "!!!!"]> ∅))
                Examples.bare_world "!!!!").
  vm_compute in H. specialize (H eq_refl eq_refl eq_refl eq_refl eq_refl).
  discriminate.
Qed.

Lemma is_alphabet_Some c v : Base64.a2b c = Some v → is_alphabet c = true.
Proof. intros H. apply bool_decide_eq_true. eauto. Qed.

Lemma is_alphabet_None c : Base64.a2b c = None → is_alphabet c = false.
Proof. intros H. apply bool_decide_eq_false. rewrite H. now intros [? ?]. Qed.

Lemma cons_byte_None b r : Base64.cons_byte b r = None ↔ r = None.
Proof. unfold Base64.cons_byte. now destruct r. Qed.

Lemma mod4_step n : ((3 + S n) mod 4 = n mod 4)%nat.
Proof.
  replace (3 + S n)%nat with (n + 1 * 4)%nat by lia.
  apply Nat.Div0.mod_add.
Qed.

(** Without pad characters the decoder fails exactly when a quad is left
    unfinished. *)
Lemma a2b_loop_pad_free s :
  Str.contains_char Base64.pad s = false →
  ∀ q l p, (q < 4)%nat →
    Base64.a2b_loop q l p s = None ↔ ((q + alphabet_count s) mod 4 ≠ 0)%nat.
Proof.
  induction s as [|c s IH]; intros Hpad q l p Hq.
  - cbn [Base64.a2b_loop alphabet_count]. rewrite Nat.add_0_r.
    rewrite Nat.mod_small by assumption.
    destruct q; cbn [Nat.eqb]; split; intros; try done. all: lia.
  - cbn [Str.contains_char] in Hpad. apply orb_false_iff in Hpad as [Hc Hs].
    cbn [Base64.a2b_loop alphabet_count]. rewrite Hc.
    destruct (Base64.a2b c) as [v|] eqn:Hv.
    + rewrite (is_alphabet_Some _ _ Hv).
      destruct q as [|[|[|[|q]]]]; try lia;
        rewrite ?cons_byte_None, (IH Hs) by lia.
      * now replace (0 + (1 + alphabet_count s))%nat with (1 + alphabet_count s)%nat by lia.
      * now replace (1 + (1 + alphabet_count s))%nat with (2 + alphabet_count s)%nat by lia.
      * now replace (2 + (1 + alphabet_count s))%nat with (3 + alphabet_count s)%nat by lia.
      * change (1 + alphabet_count s)%nat with (S (alphabet_count s)).
        now rewrite mod4_step.
    + rewrite (is_alphabet_None _ Hv). now rewrite (IH Hs) by assumption.
Qed.

Lemma base64_branch_run filename mime_type s w :
  Str.otruthy filename = true →
  base64_branch filename mime_type s w =
  ([], match Base64.b64decode s with
       | Some data =>
           Ok {| ra_filename := default "" filename;
                 ra_mime_type :=
                   if Str.otruthy mime_type then default "" mime_type
                   else or_octet_stream (guess_type w (default "" filename));
                 ra_data := data |}
       | None => Err InvalidBase64Error
       end).
Proof.
  intros Hf. unfold base64_branch. rewrite Hf. cbn [negb].
  rewrite run_bind, mime_type_or_guess_run.
  destruct (Base64.b64decode s); reflexivity.
Qed.

(** C5 (amended): for every AttachmentSpec with content_base64 present
    (path absent, filename present), resolution decodes the payload with
    the lenient decoder and fails with InvalidBase64Error exactly when
    that decoder fails: for every string that is not ASCII and, among the
    ASCII strings without pad characters, exactly for those whose number
    of alphabet characters is not a multiple of four.  Characters outside
    the alphabet are discarded, not rejected. *)
Theorem base64_attachment_decoding (att : attachment_spec) (w : world)
    (s filename : string) :
  att !! "content_base64" = Some s →
  Str.truthy s = true →
  Str.otruthy (att !! "path") = false →
  att !! "filename" = Some filename →
  Str.truthy filename = true →
  (outcome (resolve_attachment att w) = Err InvalidBase64Error
   ↔ Base64.b64decode s = None)
  ∧ (∀ data, Base64.b64decode s = Some data →
       ∃ mime_type,
         resolve_attachment att w
         = ([], Ok {| ra_filename := filename; ra_mime_type := mime_type;
                      ra_data := data |}))
  ∧ (Str.is_ascii s = false → Base64.b64decode s = None)
  ∧ (Str.is_ascii s = true → Str.contains_char Base64.pad s = false →
     (Base64.b64decode s = None ↔ (alphabet_count s mod 4 ≠ 0)%nat)).
Proof.
  intros Hs Hts Hp Hf Htf.
  assert (resolve_attachment att w =
          base64_branch (att !! "filename") (att !! "mime_type") s w) as Hrun.
  { rewrite resolve_attachment_cases, Hs, Hp, Hf.
    cbn [Str.otruthy default from_option id]. now rewrite Hts, Htf. }
  rewrite Hrun, base64_branch_run by (rewrite Hf; exact Htf).
  rewrite Hf. cbn [default from_option id outcome snd].
  split; [|split; [|split]].
  - destruct (Base64.b64decode s); split; (discriminate || reflexivity).
  - intros data ->. eauto.
  - unfold Base64.b64decode. now intros ->.
  - intros Hascii Hpad. unfold Base64.b64decode, Base64.a2b_base64.
    rewrite Hascii. apply (a2b_loop_pad_free s Hpad 0%nat). lia.
Qed.

Lemma base64_attachment_decoding_witness :
  ∃ mime_type,
    resolve_attachment Examples.hello_attachment Examples.bare_world
    = ([], Ok {| ra_filename := "a.txt"; ra_mime_type := mime_type;
                 ra_data := "hello" |}).
Proof.
  destruct (base64_attachment_decoding Examples.hello_attachment
              Examples.bare_world "aGVsbG8=" "a.txt")
    as (_ & H & _); [reflexivity | reflexivity | reflexivity | reflexivity
                    | reflexivity |].
  apply H. reflexivity.
Defined.


(** ** Determinism and the random boundary *)



Lemma is_ascii_app s t : Str.is_ascii (s +:+ t) = Str.is_ascii s && Str.is_ascii t.
Proof.
  unfold Str.is_ascii. induction s as [|a s IH]; [reflexivity|].
  rewrite sapp_cons. cbn [Str.forallb_char]. now rewrite IH, andb_assoc.
Qed.

Lemma is_ascii_replicate n c :
  (N_of_ascii c <? 128)%N = true → Str.is_ascii (Str.replicate_char n c) = true.
Proof.
  intros Hc. unfold Str.is_ascii.
  induction n as [|n IH]; [reflexivity|].
  cbn [Str.replicate_char Str.forallb_char]. now rewrite Hc, IH.
Qed.

Lemma is_ascii_uint d : Str.is_ascii (NilEmpty.string_of_uint d) = true.
Proof. induction d; cbn; auto. Qed.

Lemma is_ascii_str_N n : Str.is_ascii (Generator.str_N n) = true.
Proof. apply is_ascii_uint. Qed.

Lemma is_ascii_fmt t : Str.is_ascii (Generator.fmt t) = true.
Proof.
  unfold Generator.fmt. rewrite is_ascii_app, is_ascii_str_N.
  now rewrite is_ascii_replicate.
Qed.

Lemma is_ascii_find_boundary fuel lines boundary b counter :
  Str.is_ascii boundary = true → Str.is_ascii b = true →
  Str.is_ascii (Generator.find_boundary fuel lines boundary b counter) = true.
Proof.
  intros Hbd. revert b counter.
  induction fuel as [|fuel IH]; intros b counter Hb; [exact Hb|].
  cbn [Generator.find_boundary]. destruct (Generator.collides b lines); [|exact Hb].
  apply IH. now rewrite !is_ascii_app, Hbd, is_ascii_str_N.
Qed.

Lemma is_ascii_make_boundary t text :
  Str.is_ascii (Generator._make_boundary t text) = true.
Proof.
  unfold Generator._make_boundary.
  assert (Str.is_ascii (Str.replicate_char 15 "=" +:+ Generator.fmt t +:+ "==") = true)
    as H by now rewrite !is_ascii_app, is_ascii_fmt.
  now apply is_ascii_find_boundary.
Qed.

Lemma fold_binary_run h v :
  Generator.fold_binary (h, v) =
  if Str.is_ascii h && Str.is_ascii v
  then Ok (h +:+ ": " +:+ v +:+ NL) else Err UnicodeEncodeError.
Proof.
  unfold Generator.fold_binary. cbn [fst snd]. rewrite !is_ascii_app.
  replace (Str.is_ascii ": ") with true by reflexivity.
  replace (Str.is_ascii NL) with true by reflexivity.
  cbn [andb]. now rewrite andb_true_r.
Qed.

Lemma set_boundary_cons b h v hs :
  Generator.set_boundary b ((h, v) :: hs)
  = (if String.eqb (Str.lower h) "content-type"
     then (h, v +:+ "; boundary=" +:+ dquote +:+ b +:+ dquote)
     else (h, v)) :: Generator.set_boundary b hs.
Proof. reflexivity. Qed.

(** Whether the headers can be written does not depend on which ASCII
    boundary was put into them. *)
Lemma write_headers_failure b1 b2 hs :
  Str.is_ascii b1 = true → Str.is_ascii b2 = true →
  failure (Generator.write_headers (Generator.set_boundary b1 hs))
  = failure (Generator.write_headers (Generator.set_boundary b2 hs)).
Proof.
  intros H1 H2. induction hs as [|[h v] hs IH]; [reflexivity|].
  rewrite !set_boundary_cons. cbn [Generator.write_headers].
  destruct (String.eqb (Str.lower h) "content-type");
    rewrite !fold_binary_run, ?is_ascii_app, ?H1, ?H2;
    replace (Str.is_ascii "; boundary=") with true by reflexivity;
    replace (Str.is_ascii dquote) with true by reflexivity;
    cbn [andb]; rewrite ?andb_true_r;
    (destruct (Str.is_ascii h && Str.is_ascii v); [|reflexivity]);
    cbn [mbind result_bind];
    destruct (Generator.write_headers (Generator.set_boundary b1 hs)),
             (Generator.write_headers (Generator.set_boundary b2 hs));
    cbn in *; congruence.
Qed.

Lemma as_bytes_failure t1 t2 m :
  failure (Generator.as_bytes t1 m) = failure (Generator.as_bytes t2 m).
Proof.
  unfold Generator.as_bytes.
  destruct (Generator.flatten_parts (subparts m)) as [texts|e]; [|reflexivity].
  cbn [mbind result_bind].
  pose proof (write_headers_failure
                (Generator._make_boundary t1 (Str.join NL texts))
                (Generator._make_boundary t2 (Str.join NL texts))
                (mp_headers m) (is_ascii_make_boundary _ _)
                (is_ascii_make_boundary _ _)) as H.
  destruct (Generator.write_headers (Generator.set_boundary
              (Generator._make_boundary t1 _) _)),
           (Generator.write_headers (Generator.set_boundary
              (Generator._make_boundary t2 _) _)); cbn in *; congruence.
Qed.

Lemma build_run t req w :
  build_raw_email t req w =
  (trace (assemble req w),
   match outcome (assemble req w) with
   | Ok m => bytes ← Generator.as_bytes t m; mret (Base64.urlsafe_b64encode bytes)
   | Err e => Err e
   end).
Proof.
  unfold build_raw_email. rewrite run_bind.
  destruct (assemble req w) as [tr [m|e]]; [|reflexivity].
  rewrite run_bind. unfold lift. cbn [trace outcome fst snd].
  destruct (Generator.as_bytes t m); cbn; now rewrite ?app_nil_r.
Qed.



(** ** Round trip of an attachment *)

Lemma hello_attachment_run w :
  guess_type w "a.txt" = Some "text/plain" →
  resolve_attachment Examples.hello_attachment w
  = ([], Ok {| ra_filename := "a.txt"; ra_mime_type := "text/plain";
               ra_data := "hello" |}).
Proof.
  intros Hg. rewrite resolve_attachment_cases.
  change (Examples.hello_attachment !! "content_base64") with (Some "aGVsbG8=").
  change (Examples.hello_attachment !! "path") with (@None string).
  change (Examples.hello_attachment !! "filename") with (Some "a.txt").
  change (Examples.hello_attachment !! "mime_type") with (@None string).
  cbn [Str.otruthy Str.truthy default from_option id].
  rewrite base64_branch_run by reflexivity.
  cbn [Str.otruthy default from_option id]. rewrite Hg. reflexivity.
Qed.


(** *** Base64: decoding what was encoded *)

Lemma forall_ascii_spec (P : ascii → bool) :
  forall_ascii P = true → ∀ x, P x = true.
Proof.
  unfold forall_ascii. rewrite forallb_forall. intros H x. apply H.
  unfold all_ascii. rewrite <- (ascii_nat_embedding x).
  apply in_map, in_seq. pose proof (nat_ascii_bounded x). lia.
Qed.

Lemma forall_ascii2_spec (P : ascii → ascii → bool) :
  forall_ascii2 P = true → ∀ x y, P x y = true.
Proof.
  intros H x y. unfold forall_ascii2 in H.
  exact (forall_ascii_spec _ (forall_ascii_spec _ H x) y).
Qed.

Lemma reads_as_inv c v :
  reads_as c v = true → Ascii.eqb c Base64.pad = false ∧ Base64.a2b c = Some v.
Proof.
  unfold reads_as. intros H. apply andb_true_iff in H as [H1 H2].
  apply negb_true_iff in H1. apply bool_decide_eq_true in H2. auto.
Qed.

Lemma reads_sextet1 x : reads_as (Base64.b2a (sextet1 x)) (sextet1 x) = true.
Proof. revert x. apply forall_ascii_spec. vm_compute. reflexivity. Qed.

Lemma reads_sextet2 x y : reads_as (Base64.b2a (sextet2 x y)) (sextet2 x y) = true.
Proof. revert x y. apply forall_ascii2_spec. vm_compute. reflexivity. Qed.

Lemma reads_sextet3 y z : reads_as (Base64.b2a (sextet3 y z)) (sextet3 y z) = true.
Proof. revert y z. apply forall_ascii2_spec. vm_compute. reflexivity. Qed.

Lemma reads_sextet4 z : reads_as (Base64.b2a (sextet4 z)) (sextet4 z) = true.
Proof. revert z. apply forall_ascii_spec. vm_compute. reflexivity. Qed.

Lemma reads_sextet2_last x :
  reads_as (Base64.b2a (sextet2_last x)) (sextet2_last x) = true.
Proof. revert x. apply forall_ascii_spec. vm_compute. reflexivity. Qed.

Lemma reads_sextet3_last y :
  reads_as (Base64.b2a (sextet3_last y)) (sextet3_last y) = true.
Proof. revert y. apply forall_ascii_spec. vm_compute. reflexivity. Qed.

Lemma byte1_of_sextets x y :
  ascii_of_N (N.lor (N.shiftl (sextet1 x) 2) (N.shiftr (sextet2 x y) 4)) = x.
Proof.
  apply Ascii.eqb_eq. revert x y.
  apply (forall_ascii2_spec (λ x y, Ascii.eqb _ x)). vm_compute. reflexivity.
Qed.

Lemma byte2_of_sextets x y z :
  ascii_of_N (N.lor (N.shiftl (N.land (sextet2 x y) 15) 4)
                (N.shiftr (sextet3 y z) 2)) = y.
Proof.
  assert (N.land (sextet2 x y) 15 = N.shiftr (N_of_ascii y) 4) as ->.
  { apply N.eqb_eq. revert x y.
    apply (forall_ascii2_spec (λ x y, N.eqb _ _)). vm_compute. reflexivity. }
  apply Ascii.eqb_eq. revert y z.
  apply (forall_ascii2_spec (λ y z, Ascii.eqb _ y)). vm_compute. reflexivity.
Qed.

Lemma byte3_of_sextets y z :
  ascii_of_N (N.lor (N.shiftl (N.land (sextet3 y z) 3) 6) (sextet4 z)) = z.
Proof.
  apply Ascii.eqb_eq. revert y z.
  apply (forall_ascii2_spec (λ y z, Ascii.eqb _ z)). vm_compute. reflexivity.
Qed.

Lemma byte1_of_sextets_last x :
  ascii_of_N (N.lor (N.shiftl (sextet1 x) 2) (N.shiftr (sextet2_last x) 4)) = x.
Proof.
  apply Ascii.eqb_eq. revert x.
  apply (forall_ascii_spec (λ x, Ascii.eqb _ x)). vm_compute. reflexivity.
Qed.

Lemma byte2_of_sextets_last x y :
  ascii_of_N (N.lor (N.shiftl (N.land (sextet2 x y) 15) 4)
                (N.shiftr (sextet3_last y) 2)) = y.
Proof.
  apply Ascii.eqb_eq. revert x y.
  apply (forall_ascii2_spec (λ x y, Ascii.eqb _ y)). vm_compute. reflexivity.
Qed.


Lemma a2b_loop_read c v q l p s :
  reads_as c v = true →
  Base64.a2b_loop q l p (String c s) =
  match q with
  | 0%nat => Base64.a2b_loop 1 v 0 s
  | 1%nat =>
      Base64.cons_byte (N.lor (N.shiftl l 2) (N.shiftr v 4))
        (Base64.a2b_loop 2 (N.land v 15) 0 s)
  | 2%nat =>
      Base64.cons_byte (N.lor (N.shiftl l 4) (N.shiftr v 2))
        (Base64.a2b_loop 3 (N.land v 3) 0 s)
  | _ => Base64.cons_byte (N.lor (N.shiftl l 6) v) (Base64.a2b_loop 0 0 0 s)
  end.
Proof.
  intros H. apply reads_as_inv in H as [Hpad Hv].
  cbn [Base64.a2b_loop]. now rewrite Hpad, Hv.
Qed.

(** Induction on strings in steps of three characters. *)
Lemma string_ind3 (P : string → Prop) :
  P "" →
  (∀ x, P (String x "")) →
  (∀ x y, P (String x (String y ""))) →
  (∀ x y z r, P r → P (String x (String y (String z r)))) →
  ∀ s, P s.
Proof.
  intros H0 H1 H2 H3 s.
  assert (P s ∧ (∀ x, P (String x s)) ∧ (∀ x y, P (String x (String y s)))) as H;
    [|tauto].
  induction s as [|a s (IH0 & IH1 & IH2)]; [auto|].
  split; [apply IH1|]. split; [intros x; apply IH2|].
  intros x y. now apply H3.
Qed.

Lemma encode_groups_three x y z r :
  Base64.encode_groups (String x (String y (String z r)))
  = String (Base64.b2a (sextet1 x))
      (String (Base64.b2a (sextet2 x y))
         (String (Base64.b2a (sextet3 y z))
            (String (Base64.b2a (sextet4 z)) (Base64.encode_groups r)))).
Proof. reflexivity. Qed.

Lemma a2b_loop_encode_groups s :
  Base64.a2b_loop 0 0 0 (Base64.encode_groups s) = Some s.
Proof.
  induction s as [|x|x y|x y z r IH] using string_ind3.
  - reflexivity.
  - change (Base64.encode_groups (String x ""))
      with (String (Base64.b2a (sextet1 x))
              (String (Base64.b2a (sextet2_last x)) "==")).
    rewrite (a2b_loop_read _ _ _ _ _ _ (reads_sextet1 x)).
    rewrite (a2b_loop_read _ _ _ _ _ _ (reads_sextet2_last x)).
    unfold Base64.cons_byte. rewrite byte1_of_sextets_last. reflexivity.
  - change (Base64.encode_groups (String x (String y "")))
      with (String (Base64.b2a (sextet1 x))
              (String (Base64.b2a (sextet2 x y))
                 (String (Base64.b2a (sextet3_last y)) "="))).
    rewrite (a2b_loop_read _ _ _ _ _ _ (reads_sextet1 x)).
    rewrite (a2b_loop_read _ _ _ _ _ _ (reads_sextet2 x y)).
    rewrite (a2b_loop_read _ _ _ _ _ _ (reads_sextet3_last y)).
    unfold Base64.cons_byte. rewrite byte1_of_sextets, byte2_of_sextets_last. reflexivity.
  - rewrite encode_groups_three.
    rewrite (a2b_loop_read _ _ _ _ _ _ (reads_sextet1 x)).
    rewrite (a2b_loop_read _ _ _ _ _ _ (reads_sextet2 x y)).
    rewrite (a2b_loop_read _ _ _ _ _ _ (reads_sextet3 y z)).
    rewrite (a2b_loop_read _ _ _ _ _ _ (reads_sextet4 z)).
    unfold Base64.cons_byte.
    rewrite IH, byte1_of_sextets, byte2_of_sextets, byte3_of_sextets.
    reflexivity.
Qed.

(** The characters of an encoding: the alphabet and the pad. *)
Lemma reads_as_alphabet c v : reads_as c v = true → is_alphabet_or_pad c = true.
Proof.
  intros H. apply reads_as_inv in H as [_ Hv].
  unfold is_alphabet_or_pad. now rewrite (is_alphabet_Some _ _ Hv).
Qed.

Lemma encode_groups_chars s :
  Str.forallb_char is_alphabet_or_pad (Base64.encode_groups s) = true.
Proof.
  induction s as [|x|x y|x y z r IH] using string_ind3.
  - reflexivity.
  - change (Base64.encode_groups (String x ""))
      with (String (Base64.b2a (sextet1 x))
              (String (Base64.b2a (sextet2_last x)) "==")).
    cbn [Str.forallb_char].
    rewrite (reads_as_alphabet _ _ (reads_sextet1 x)),
      (reads_as_alphabet _ _ (reads_sextet2_last x)). reflexivity.
  - change (Base64.encode_groups (String x (String y "")))
      with (String (Base64.b2a (sextet1 x))
              (String (Base64.b2a (sextet2 x y))
                 (String (Base64.b2a (sextet3_last y)) "="))).
    cbn [Str.forallb_char].
    rewrite (reads_as_alphabet _ _ (reads_sextet1 x)),
      (reads_as_alphabet _ _ (reads_sextet2 x y)),
      (reads_as_alphabet _ _ (reads_sextet3_last y)). reflexivity.
  - rewrite encode_groups_three. cbn [Str.forallb_char].
    rewrite (reads_as_alphabet _ _ (reads_sextet1 x)),
      (reads_as_alphabet _ _ (reads_sextet2 x y)),
      (reads_as_alphabet _ _ (reads_sextet3 y z)),
      (reads_as_alphabet _ _ (reads_sextet4 z)), IH. reflexivity.
Qed.

Lemma forallb_char_impl (P Q : ascii → bool) s :
  (∀ c, P c = true → Q c = true) →
  Str.forallb_char P s = true → Str.forallb_char Q s = true.
Proof.
  intros HPQ. induction s as [|a s IH]; [reflexivity|].
  cbn [Str.forallb_char]. intros H. apply andb_true_iff in H as [Ha Hs].
  now rewrite (HPQ _ Ha), (IH Hs).
Qed.

Lemma alphabet_or_pad_facts c :
  is_alphabet_or_pad c = true →
  (N_of_ascii c <? 128)%N = true
  ∧ Ascii.eqb c "-" = false ∧ Ascii.eqb c "_" = false
  ∧ Ascii.eqb c "010" = false ∧ Ascii.eqb c "013" = false.
Proof.
  revert c.
  assert (∀ c, (negb (is_alphabet_or_pad c)
                || ((N_of_ascii c <? 128)%N
                    && negb (Ascii.eqb c "-") && negb (Ascii.eqb c "_")
                    && negb (Ascii.eqb c "010") && negb (Ascii.eqb c "013")))
               = true) as H.
  { apply forall_ascii_spec. vm_compute. reflexivity. }
  intros c Hc. specialize (H c). rewrite Hc in H. cbn [negb orb] in H.
  repeat (apply andb_true_iff in H as [H ?]).
  repeat split; try assumption; now apply negb_true_iff.
Qed.

Lemma urlsafe_translation_undone s :
  Str.forallb_char is_alphabet_or_pad s = true →
  Base64.translate "_" "/"
    (Base64.translate "-" "+"
       (Base64.translate "/" "_" (Base64.translate "+" "-" s))) = s.
Proof.
  assert (∀ c, (negb (is_alphabet_or_pad c)
                || Ascii.eqb
                     (let c1 := if Ascii.eqb c "+" then "-"%char else c in
                      let c2 := if Ascii.eqb c1 "/" then "_"%char else c1 in
                      let c3 := if Ascii.eqb c2 "-" then "+"%char else c2 in
                      if Ascii.eqb c3 "_" then "/"%char else c3) c) = true) as Hc.
  { apply forall_ascii_spec. vm_compute. reflexivity. }
  induction s as [|a s IH]; [reflexivity|].
  cbn [Str.forallb_char Base64.translate]. intros H.
  apply andb_true_iff in H as [Ha Hs]. rewrite (IH Hs). f_equal.
  specialize (Hc a). rewrite Ha in Hc. cbn [negb orb] in Hc.
  now apply Ascii.eqb_eq in Hc.
Qed.

(** [urlsafe_b64decode] undoes [urlsafe_b64encode]. *)
Lemma urlsafe_round_trip s :
  Base64.urlsafe_b64decode (Base64.urlsafe_b64encode s) = Some s.
Proof.
  unfold Base64.urlsafe_b64decode, Base64.urlsafe_b64encode, Base64.b64encode.
  pose proof (encode_groups_chars s) as Hchars.
  rewrite urlsafe_translation_undone by exact Hchars.
  unfold Base64.b64decode, Base64.a2b_base64.
  rewrite a2b_loop_encode_groups.
  replace (Str.is_ascii (Base64.encode_groups s)) with true; [reflexivity|].
  symmetry. revert Hchars. apply forallb_char_impl. intros c Hc.
  now apply alphabet_or_pad_facts in Hc as (-> & _).
Qed.


(** *** Lines *)

Local Arguments String.append : simpl nomatch.

Lemma split_on_join c ls :
  ls ≠ [] →
  Forall (λ l, Str.contains_char c l = false) ls →
  Str.split_on c (Str.join (String c "") ls) = ls.
Proof.
  intros Hne H. induction H as [|l ls Hl Hls IH]; [done|].
  destruct ls as [|l' ls].
  - now apply split_on_no_sep.
  - rewrite join_cons by done.
    change (String c "" +:+ Str.join (String c "") (l' :: ls))
      with (String c (Str.join (String c "") (l' :: ls))).
    rewrite split_on_app, IH by done. now rewrite (split_on_no_sep _ _ Hl).
Qed.

Lemma join_split_on c s : Str.join (String c "") (Str.split_on c s) = s.
Proof.
  induction s as [|a s IH]; [reflexivity|].
  cbn [Str.split_on]. destruct (Ascii.eqb a c) eqn:Hac.
  - apply Ascii.eqb_eq in Hac as ->.
    rewrite join_cons by apply split_on_nonempty. now rewrite IH.
  - pose proof (split_on_nonempty c s) as Hne.
    destruct (Str.split_on c s) as [|h t]; [done|].
    destruct t as [|h' t].
    + cbn [Str.join] in *. now subst.
    + rewrite join_cons in IH by done. rewrite join_cons by done.
      rewrite <- IH. reflexivity.
Qed.

Lemma forallb_char_app P s t :
  Str.forallb_char P (s +:+ t) = Str.forallb_char P s && Str.forallb_char P t.
Proof.
  induction s as [|a s IH]; [reflexivity|].
  cbn [String.append Str.forallb_char]. now rewrite IH, andb_assoc.
Qed.

Lemma contains_char_forallb c s :
  Str.contains_char c s = negb (Str.forallb_char (λ a, negb (Ascii.eqb a c)) s).
Proof.
  induction s as [|a s IH]; [reflexivity|].
  cbn [Str.contains_char Str.forallb_char]. rewrite IH.
  now destruct (Ascii.eqb a c).
Qed.

Lemma contains_char_app c s t :
  Str.contains_char c (s +:+ t) = Str.contains_char c s || Str.contains_char c t.
Proof.
  rewrite !contains_char_forallb, forallb_char_app. apply negb_andb.
Qed.

Lemma forallb_char_excludes (P : ascii → bool) c s :
  P c = false → Str.forallb_char P s = true → Str.contains_char c s = false.
Proof.
  intros Hc. induction s as [|a s IH]; [reflexivity|].
  cbn [Str.forallb_char Str.contains_char]. intros H.
  apply andb_true_iff in H as [Ha Hs]. rewrite (IH Hs), orb_false_r.
  destruct (Ascii.eqb_spec a c) as [->|]; [congruence | reflexivity].
Qed.

(** *** The boundary *)

Lemma boundary_chars_uint d :
  Str.forallb_char is_boundary_char (NilEmpty.string_of_uint d) = true.
Proof. induction d; cbn; auto. Qed.

Lemma boundary_chars_replicate n c :
  is_boundary_char c = true →
  Str.forallb_char is_boundary_char (Str.replicate_char n c) = true.
Proof.
  intros Hc. induction n as [|n IH]; [reflexivity|].
  cbn [Str.replicate_char Str.forallb_char]. now rewrite Hc, IH.
Qed.

Lemma boundary_chars_find fuel lines boundary b counter :
  Str.forallb_char is_boundary_char boundary = true →
  Str.forallb_char is_boundary_char b = true →
  Str.forallb_char is_boundary_char
    (Generator.find_boundary fuel lines boundary b counter) = true.
Proof.
  intros Hbd. revert b counter.
  induction fuel as [|fuel IH]; intros b counter Hb; [exact Hb|].
  cbn [Generator.find_boundary]. destruct (Generator.collides b lines); [|exact Hb].
  apply IH. rewrite !forallb_char_app, Hbd. unfold Generator.str_N.
  now rewrite boundary_chars_uint.
Qed.

Lemma boundary_chars t text :
  Str.forallb_char is_boundary_char (Generator._make_boundary t text) = true.
Proof.
  unfold Generator._make_boundary.
  assert (Str.forallb_char is_boundary_char
            (Str.replicate_char 15 "=" +:+ Generator.fmt t +:+ "==") = true) as H.
  { rewrite !forallb_char_app. unfold Generator.fmt, Generator.str_N.
    rewrite forallb_char_app, boundary_chars_uint.
    now rewrite !boundary_chars_replicate. }
  now apply boundary_chars_find.
Qed.


(** *** Reading the boundary parameter back *)

Lemma rstrip_ends c s :
  Str.is_space c = false → Str.rstrip (s +:+ String c "") = s +:+ String c "".
Proof.
  intros Hc. induction s as [|a s IH].
  - cbn. now rewrite Hc.
  - cbn [String.append Str.rstrip]. rewrite IH.
    destruct s; reflexivity.
Qed.

Lemma drop_last_quote_app b : Parser.drop_last_quote (b +:+ dquote) = Some b.
Proof.
  induction b as [|a b IH]; [reflexivity|].
  cbn [String.append Parser.drop_last_quote]. rewrite IH.
  destruct b; reflexivity.
Qed.

Lemma split_semi_quoted b :
  Str.contains_char "034" b = false →
  Parser.split_semi true (b +:+ dquote) = [b +:+ dquote].
Proof.
  induction b as [|a b IH]; [reflexivity|].
  cbn [Str.contains_char]. intros H. apply orb_false_iff in H as [Ha Hb].
  cbn [String.append Parser.split_semi]. rewrite Ha, andb_false_r, (IH Hb).
  reflexivity.
Qed.

Lemma unquote_quoted b :
  Parser.unquote (Str.strip (String "034" (b +:+ dquote))) = b.
Proof.
  unfold Str.strip. cbn [Str.lstrip].
  replace (Str.is_space "034") with false by reflexivity.
  change (String "034" (b +:+ dquote)) with (String "034" b +:+ String "034" "").
  rewrite rstrip_ends by reflexivity.
  cbn [String.append Parser.unquote]. rewrite Ascii.eqb_refl.
  change (String "034" "") with dquote. now rewrite drop_last_quote_app.
Qed.

Lemma boundary_param b :
  Str.contains_char "034" b = false →
  Parser.find_param "boundary"
    (tail (Parser.split_semi false
             ("multipart/mixed; boundary=" +:+ dquote +:+ b +:+ dquote)))
  = Some b.
Proof.
  intros Hb. unfold dquote.
  cbn [String.append Parser.split_semi Ascii.eqb Bool.eqb andb negb tail].
  change (String "034" "") with dquote.
  rewrite (split_semi_quoted b Hb).
  cbn [Parser.find_param Parser.split_equals Ascii.eqb Bool.eqb].
  change (Str.lower (Str.strip " boundary") =? "boundary")%string with true.
  cbn iota. now rewrite unquote_quoted.
Qed.

(** *** Delimiter lines *)

Lemma is_line_refl x : Parser.is_line x x = true.
Proof.
  induction x as [|a x IH]; [reflexivity|].
  cbn [Parser.is_line]. now rewrite Ascii.eqb_refl, IH.
Qed.

Lemma is_line_longer x a y : Parser.is_line (x +:+ String a y) x = false.
Proof.
  induction x as [|b x IH]; [reflexivity|].
  cbn [String.append Parser.is_line]. now rewrite IH, andb_false_r.
Qed.

Lemma is_line_no_dash x l :
  no_dash l = true → Parser.is_line (String "-" x) l = false.
Proof.
  unfold no_dash. intros H. apply negb_true_iff in H.
  destruct l as [|c l]; [reflexivity|].
  cbn [Str.startswith] in H. cbn [Parser.is_line].
  rewrite andb_true_r in H. now rewrite H.
Qed.

Lemma parts_go_delimiter b cur rest :
  Parser.parts_go b cur (("--" +:+ b) :: rest)
  = option_list (@rev string <$> cur) ++ Parser.parts_go b (Some []) rest.
Proof.
  cbn [Parser.parts_go].
  replace (Parser.is_line ("--" +:+ b +:+ "--") ("--" +:+ b)) with false.
  - now rewrite is_line_refl.
  - symmetry. rewrite <- sapp_assoc. apply is_line_longer.
Qed.

Lemma parts_go_close b cur rest :
  Parser.parts_go b cur (("--" +:+ b +:+ "--") :: rest)
  = option_list (@rev string <$> cur).
Proof. cbn [Parser.parts_go]. now rewrite is_line_refl. Qed.

Lemma parts_go_lines b acc ls rest :
  Forall (λ l, no_dash l = true) ls →
  Parser.parts_go b (Some acc) (ls ++ rest)
  = Parser.parts_go b (Some (rev ls ++ acc)) rest.
Proof.
  intros H. revert acc. induction H as [|l ls Hl Hls IH]; intros acc; [reflexivity|].
  cbn [app Parser.parts_go String.append].
  rewrite !is_line_no_dash by assumption. cbn [fmap option_fmap option_map].
  rewrite IH. cbn [rev]. now rewrite <- app_assoc.
Qed.


(** *** The lines of an encoded body *)

Lemma split_on_chars (P : ascii → bool) sep t :
  Str.forallb_char (λ c, P c || Ascii.eqb c sep) t = true →
  Forall (λ l, Str.forallb_char P l = true) (Str.split_on sep t).
Proof.
  induction t as [|a t IH]; [repeat constructor|].
  cbn [Str.forallb_char Str.split_on]. intros H.
  apply andb_true_iff in H as [Ha Ht]. specialize (IH Ht).
  destruct (Ascii.eqb a sep) eqn:Hsep; [now constructor|].
  rewrite orb_false_r in Ha.
  pose proof (split_on_nonempty sep t) as Hne.
  destruct (Str.split_on sep t) as [|h tl]; [done|].
  inversion IH; subst. constructor; [|assumption].
  cbn [Str.forallb_char]. now rewrite Ha.
Qed.

Lemma forallb_char_join_empty (Q : ascii → bool) es :
  Forall (λ e, Str.forallb_char Q e = true) es →
  Str.forallb_char Q (Str.join "" es) = true.
Proof.
  induction 1 as [|e es He Hes IH]; [reflexivity|].
  destruct es as [|e' es]; [exact He|].
  rewrite join_cons by done. now rewrite !forallb_char_app, He, IH.
Qed.

Lemma encodebytes_chars s :
  Str.forallb_char (λ c, is_alphabet_or_pad c || Ascii.eqb c "010")
    (Base64.encodebytes s) = true.
Proof.
  unfold Base64.encodebytes. apply forallb_char_join_empty.
  apply Forall_map, Forall_forall. intros c _.
  unfold Base64.b2a_base64. rewrite forallb_char_app.
  apply andb_true_iff. split; [|reflexivity].
  generalize (encode_groups_chars c). apply forallb_char_impl.
  intros a ->. reflexivity.
Qed.

Lemma no_dash_chars l :
  Str.forallb_char is_alphabet_or_pad l = true → no_dash l = true.
Proof.
  destruct l as [|c l]; [reflexivity|].
  cbn [Str.forallb_char]. intros H. apply andb_true_iff in H as [Hc _].
  apply alphabet_or_pad_facts in Hc as (_ & Hd & _).
  unfold no_dash. cbn [Str.startswith].
  rewrite Ascii.eqb_sym, Hd. reflexivity.
Qed.

Lemma encodebytes_lines s :
  Forall (λ l, no_dash l = true) (Str.split_on "010" (Base64.encodebytes s)).
Proof.
  eapply Forall_impl; [apply split_on_chars, encodebytes_chars|].
  intros l. apply no_dash_chars.
Qed.


(** *** Serializing and reading back *)

Lemma join_empty_cons x l : Str.join "" (x :: l) = x +:+ Str.join "" l.
Proof.
  destruct l as [|y l]; [now rewrite sapp_nil_r|].
  now rewrite join_cons by done.
Qed.

Lemma write_headers_ok hs :
  Forall (λ h, Str.is_ascii (fst h) && Str.is_ascii (snd h) = true) hs →
  Generator.write_headers hs
  = Ok (Str.join "" (map (λ h, fst h +:+ ": " +:+ snd h +:+ NL) hs) +:+ NL).
Proof.
  induction 1 as [|[h v] hs Hh Hhs IH]; [reflexivity|].
  cbn [Generator.write_headers map fst snd] in *.
  rewrite fold_binary_run, Hh, IH. cbn [mbind result_bind mret result_ret].
  rewrite join_empty_cons. now rewrite !sapp_assoc.
Qed.

Lemma boundary_facts b :
  Str.forallb_char is_boundary_char b = true →
  Str.is_ascii b = true
  ∧ Str.contains_char "034" b = false
  ∧ Str.contains_char "010" b = false.
Proof.
  intros H. split; [|split].
  - revert H. apply forallb_char_impl.
    assert (∀ c, (negb (is_boundary_char c) || (N_of_ascii c <? 128)%N) = true) as Hc.
    { apply forall_ascii_spec. vm_compute. reflexivity. }
    intros c Hb. specialize (Hc c). now rewrite Hb in Hc.
  - revert H. now apply forallb_char_excludes.
  - revert H. now apply forallb_char_excludes.
Qed.

Lemma header_safe_facts s :
  header_safe s = true →
  Str.is_ascii s = true ∧ Str.contains_char "010" s = false.
Proof.
  unfold header_safe. intros H.
  apply andb_true_iff in H as [H _]. apply andb_true_iff in H as [H1 H2].
  apply negb_true_iff in H2. auto.
Qed.

Ltac forall_lines :=
  repeat match goal with
    | |- Forall _ (_ ++ _) => apply Forall_app_2
    | |- Forall _ (_ :: _) => constructor
    | |- Forall _ [] => constructor
    end.

Lemma parse_hello_lines b to subject sub bl :
  Str.forallb_char is_boundary_char b = true →
  header_safe to = true → header_safe subject = true →
  sub = "plain" ∨ sub = "html" →
  Forall (λ l, no_dash l = true) bl →
  Forall (λ l, Str.contains_char "010" l = false) bl →
  ∃ msg p,
    Parser.parse (Str.join NL (hello_message_lines b to subject sub bl)) = Some msg
    ∧ Parser.attachment_parts msg = [p]
    ∧ Parser.get_payload_decoded p = Some "hello"
    ∧ Parser.get_filename p = Some "a.txt".
Proof.
  intros Hb Hto Hsubj Hsub Hdash Hnl.
  destruct (boundary_facts b Hb) as (Hb_ascii & Hb_quote & Hb_nl).
  destruct (header_safe_facts to Hto) as (_ & Hto_nl).
  destruct (header_safe_facts subject Hsubj) as (_ & Hsubj_nl).
  unfold Parser.parse.
  rewrite split_on_join.
  2: { unfold hello_message_lines, container_header_lines. discriminate. }
  2: { unfold hello_message_lines, container_header_lines, text_header_lines,
         hello_part_lines.
       forall_lines;
         rewrite ?contains_char_app, ?Hb_nl, ?Hto_nl, ?Hsubj_nl; try reflexivity;
         try assumption.
       all: destruct Hsub as [-> | ->]; reflexivity. }
  assert (Parser.split_headers (hello_message_lines b to subject sub bl)
          = (container_header_lines b to subject,
             ("--" +:+ b) :: (text_header_lines sub ++ "" :: bl)
             ++ ("--" +:+ b) :: hello_part_lines
             ++ ["--" +:+ b +:+ "--"; ""])) as -> by reflexivity.
  assert (Parser.get_param "boundary" "content-type"
            (Parser.parse_headers None (container_header_lines b to subject))
          = Some b) as ->.
  { assert (Parser.parse_headers None (container_header_lines b to subject)
            = [("Content-Type",
                 "multipart/mixed; boundary=" +:+ dquote +:+ b +:+ dquote);
               ("MIME-Version", "1.0");
               ("To", Parser.lstrip_wsp to);
               ("Subject", Parser.lstrip_wsp subject)]) as -> by reflexivity.
    unfold Parser.get_param.
    change (Generator.get_header "content-type" _)
      with (Some ("multipart/mixed; boundary=" +:+ dquote +:+ b +:+ dquote)).
    cbn [mbind option_bind]. now apply boundary_param. }
  cbn [mbind option_bind mret option_ret].
  eexists _, _. split; [reflexivity|].
  cbn [subparts].
  rewrite parts_go_delimiter.
  rewrite parts_go_lines.
  2: { unfold text_header_lines. forall_lines; try assumption.
       all: try reflexivity. all: destruct Hsub as [-> | ->]; reflexivity. }
  rewrite parts_go_delimiter.
  rewrite parts_go_lines by (unfold hello_part_lines; forall_lines; reflexivity).
  rewrite parts_go_close.
  cbn [fmap option_fmap option_map option_list app].
  rewrite !app_nil_r, !rev_involutive.
  unfold Parser.attachment_parts. cbn [subparts].
  change (Parser.parse_part <$> _)
    with [Parser.parse_part (text_header_lines sub ++ "" :: bl);
          Parser.parse_part hello_part_lines].
  rewrite filter_cons_False.
  2: { destruct Hsub as [-> | ->]; vm_compute; discriminate. }
  rewrite filter_cons_True by reflexivity.
  rewrite filter_nil.
  split; [reflexivity|]. split; vm_compute; reflexivity.
Qed.

Lemma hello_as_bytes token to subject sub body :
  header_safe to = true → header_safe subject = true →
  sub = "plain" ∨ sub = "html" →
  ∃ b,
    Str.forallb_char is_boundary_char b = true
    ∧ Generator.as_bytes token
        {| mp_headers :=
             [("Content-Type", "multipart/mixed"); ("MIME-Version", "1.0");
              ("To", to); ("Subject", subject)];
           subparts :=
             [MIMEText body sub;
              attachment_part
                {| ra_filename := "a.txt"; ra_mime_type := "text/plain";
                   ra_data := "hello" |}] |}
      = Ok (Str.join NL
              (hello_message_lines b to subject sub
                 (Str.split_on "010" (Base64.encodebytes body)))).
Proof.
  intros Hto Hsubj Hsub.
  destruct (header_safe_facts to Hto) as (Hto_ascii & _).
  destruct (header_safe_facts subject Hsubj) as (Hsubj_ascii & _).
  unfold Generator.as_bytes, MIMEText. cbn [subparts mp_headers].
  pose proof (join_split_on "010" (Base64.encodebytes body)) as Hbp.
  pose proof (split_on_nonempty "010" (Base64.encodebytes body)) as Hbl.
  change (String "010" "") with NL in Hbp.
  revert Hbp Hbl. generalize (Str.split_on "010" (Base64.encodebytes body)).
  generalize (Base64.encodebytes body). intros bp bl Hbp Hbl.
  assert (Generator.flatten_parts
            [{| headers :=
                  [("Content-Type",
                     "text/" +:+ sub +:+ "; charset=" +:+ dquote +:+ "utf-8" +:+ dquote);
                   ("MIME-Version", "1.0");
                   ("Content-Transfer-Encoding", "base64")];
                payload := bp |};
             attachment_part
               {| ra_filename := "a.txt"; ra_mime_type := "text/plain";
                  ra_data := "hello" |}]
          = Ok [Str.join NL (text_header_lines sub) +:+ NL +:+ NL +:+ bp;
                Str.join NL hello_part_lines]) as ->.
  { destruct Hsub as [-> | ->]; vm_compute; reflexivity. }
  cbn [mbind result_bind].
  set (b := Generator._make_boundary token _).
  exists b. split; [apply boundary_chars|].
  destruct (boundary_facts b (boundary_chars _ _)) as (Hb_ascii & _).
  assert (Generator.set_boundary b
            [("Content-Type", "multipart/mixed"); ("MIME-Version", "1.0");
             ("To", to); ("Subject", subject)]
          = [("Content-Type",
               "multipart/mixed; boundary=" +:+ dquote +:+ b +:+ dquote);
             ("MIME-Version", "1.0"); ("To", to); ("Subject", subject)])
    as -> by reflexivity.
  rewrite write_headers_ok.
  2: { forall_lines; cbn [fst snd]; rewrite ?is_ascii_app, ?Hb_ascii,
         ?Hto_ascii, ?Hsubj_ascii; reflexivity. }
  cbn [mbind result_bind mret result_ret]. f_equal.
  clearbody b. subst bp.
  assert (hello_message_lines b to subject sub bl
          = (container_header_lines b to subject
             ++ "" :: ("--" +:+ b) :: text_header_lines sub ++ [""])
            ++ bl ++ ("--" +:+ b) :: hello_part_lines
            ++ ["--" +:+ b +:+ "--"; ""]) as ->.
  { unfold hello_message_lines, container_header_lines.
    destruct Hsub as [-> | ->]; reflexivity. }
  rewrite join_app; [|discriminate|now destruct bl].
  rewrite (join_app NL bl); [|assumption|discriminate].
  destruct Hsub as [-> | ->];
    cbn [app Str.join container_header_lines text_header_lines
           hello_part_lines map fst snd];
    rewrite !sapp_assoc; reflexivity.
Qed.

Lemma hello_assemble w rcpt subj text fmt :
  guess_type w "a.txt" = Some "text/plain" →
  assemble {| to := rcpt; subject := subj; body := text; body_format := fmt;
              attachments := [Examples.hello_attachment] |} w
  = ([], Ok {| mp_headers :=
                 [("Content-Type", "multipart/mixed"); ("MIME-Version", "1.0");
                  ("To", rcpt); ("Subject", subj)];
               subparts :=
                 [MIMEText text (if String.eqb fmt "html" then "html" else "plain");
                  attachment_part
                    {| ra_filename := "a.txt"; ra_mime_type := "text/plain";
                       ra_data := "hello" |}] |}).
Proof.
  intros Hg. unfold assemble. cbn [attachments attach_all body body_format to subject].
  rewrite !run_bind, (hello_attachment_run w Hg). reflexivity.
Qed.




(** *** The boundary loop ends within its bound *)

Lemma str_N_inj n m : Generator.str_N n = Generator.str_N m → n = m.
Proof.
  unfold Generator.str_N. intros H.
  apply DecimalN.Unsigned.to_uint_inj.
  apply (f_equal NilEmpty.uint_of_string) in H.
  rewrite !NilEmpty.usu in H. congruence.
Qed.

Lemma candidate_inj bd i j : candidate bd i = candidate bd j → i = j.
Proof.
  destruct i as [|i], j as [|j]; cbn [candidate]; intros H; [reflexivity| | |].
  - symmetry in H. apply sapp_eq_self in H. discriminate.
  - apply sapp_eq_self in H. discriminate.
  - apply String.app_inj in H. cbn [String.append] in H.
    injection H as H. apply str_N_inj in H. lia.
Qed.

Lemma candidate_chars bd k :
  Str.forallb_char is_boundary_char bd = true →
  Str.forallb_char is_boundary_char (candidate bd k) = true.
Proof.
  intros Hbd. destruct k as [|k]; [exact Hbd|]. cbn [candidate].
  rewrite !forallb_char_app, Hbd. unfold Generator.str_N.
  now rewrite boundary_chars_uint.
Qed.

(** Two texts without dashes that agree up to dashes appended are equal. *)
Lemma dash_suffix_inj x y s t :
  Str.forallb_char is_boundary_char x = true →
  Str.forallb_char is_boundary_char y = true →
  Str.forallb_char (Ascii.eqb "-") s = true →
  Str.forallb_char (Ascii.eqb "-") t = true →
  x +:+ s = y +:+ t → x = y.
Proof.
  revert y. induction x as [|a x IH]; intros y Hx Hy Hs Ht H.
  - destruct y as [|b y]; [reflexivity|]. exfalso.
    cbn [String.append Str.forallb_char] in *.
    apply andb_true_iff in Hy as [Hb _]. subst s.
    apply andb_true_iff in Hs as [Hs _]. apply Ascii.eqb_eq in Hs as <-.
    discriminate.
  - destruct y as [|b y]; cbn [String.append Str.forallb_char] in *.
    + exfalso. apply andb_true_iff in Hx as [Ha _]. subst t.
      apply andb_true_iff in Ht as [Ht _]. apply Ascii.eqb_eq in Ht as <-.
      discriminate.
    + injection H as -> H. apply andb_true_iff in Hx as [_ Hx].
      apply andb_true_iff in Hy as [_ Hy]. f_equal. eauto.
Qed.

Lemma hits_inj bd i j l :
  Str.forallb_char is_boundary_char bd = true →
  hits (candidate bd i) l → hits (candidate bd j) l → i = j.
Proof.
  intros Hbd Hi Hj. apply (candidate_inj bd).
  pose proof (candidate_chars bd i Hbd) as Hci.
  pose proof (candidate_chars bd j Hbd) as Hcj.
  assert (∃ s t, Str.forallb_char (Ascii.eqb "-") s = true
                 ∧ Str.forallb_char (Ascii.eqb "-") t = true
                 ∧ candidate bd i +:+ s = candidate bd j +:+ t)
    as (s & t & Hs & Ht & H).
  { destruct Hi as [-> | ->], Hj as [Hj | Hj];
      cbn [String.append] in Hj; injection Hj as Hj.
    - exists "", "". now rewrite !sapp_nil_r.
    - exists "", "--". now rewrite sapp_nil_r.
    - exists "--", "". now rewrite sapp_nil_r.
    - exists "--", "--". auto. }
  exact (dash_suffix_inj _ _ s t Hci Hcj Hs Ht H).
Qed.

Lemma collides_hits b lines :
  Generator.collides b lines = true ↔ ∃ l, In l lines ∧ hits b l.
Proof.
  unfold Generator.collides, hits. rewrite existsb_exists.
  split; intros (l & Hl & H); exists l; (split; [assumption|]).
  - apply orb_true_iff in H as [H | H]; apply String.eqb_eq in H; auto.
  - apply orb_true_iff. destruct H as [-> | ->]; rewrite String.eqb_refl; auto.
Qed.

(** Candidates that all collide need a line each. *)
Lemma colliding_candidates_bound bd lines k m :
  Str.forallb_char is_boundary_char bd = true →
  (∀ i, (i < m)%nat → Generator.collides (candidate bd (k + i)) lines = true) →
  (m ≤ length lines)%nat.
Proof.
  intros Hbd Hall.
  assert (∃ hs, length hs = m ∧ List.NoDup hs ∧ incl hs lines
                ∧ ∀ h, In h hs → ∃ i, (i < m)%nat ∧ hits (candidate bd (k + i)) h)
    as (hs & Hlen & Hnd & Hincl & _).
  { induction m as [|m IH].
    - exists []. repeat split; [constructor | intros ? [] | intros ? []].
    - destruct IH as (hs & Hlen & Hnd & Hincl & Hhs).
      { intros i Hi. apply Hall. lia. }
      destruct (proj1 (collides_hits _ _) (Hall m ltac:(lia))) as (l & Hl & Hhit).
      exists (l :: hs). split; [cbn; lia|]. split; [|split].
      + constructor; [|assumption]. intros Hin.
        destruct (Hhs l Hin) as (i & Hi & Hhit').
        pose proof (hits_inj bd _ _ l Hbd Hhit Hhit'). lia.
      + intros x [<- | Hx]; auto.
      + intros h [<- | Hh]; [exists m; split; [lia | assumption]|].
        destruct (Hhs h Hh) as (i & Hi & Hhit'). exists i. split; [lia | assumption]. }
  rewrite <- Hlen. now apply List.NoDup_incl_length.
Qed.

Lemma find_boundary_steps fuel lines bd k :
  ∃ j, (j ≤ fuel)%nat
       ∧ Generator.find_boundary fuel lines bd (candidate bd k) (N.of_nat k)
         = candidate bd (k + j)
       ∧ (∀ i, (i < j)%nat → Generator.collides (candidate bd (k + i)) lines = true)
       ∧ ((j < fuel)%nat → Generator.collides (candidate bd (k + j)) lines = false).
Proof.
  revert k. induction fuel as [|fuel IH]; intros k.
  - exists 0%nat. rewrite Nat.add_0_r. repeat split; intros; lia.
  - cbn [Generator.find_boundary].
    destruct (Generator.collides (candidate bd k) lines) eqn:Hc.
    + destruct (IH (S k)) as (j & Hj & Hres & Hall & Hlast).
      exists (S j). split; [lia|].
      replace (N.of_nat k + 1)%N with (N.of_nat (S k)) by lia.
      change (bd +:+ "." +:+ Generator.str_N (N.of_nat k)) with (candidate bd (S k)).
      replace (k + S j)%nat with (S k + j)%nat by lia.
      split; [exact Hres|]. split.
      * intros [|i] Hi; [now rewrite Nat.add_0_r|].
        replace (k + S i)%nat with (S k + i)%nat by lia. apply Hall. lia.
      * intros Hlt. apply Hlast. lia.
    + exists 0%nat. rewrite Nat.add_0_r. repeat split; [lia | intros; lia | auto].
Qed.

(** The boundary that [_make_boundary] returns is no delimiter line of the
    text it was given: the bound on the loop is never what ends it. *)
Lemma make_boundary_fresh t text :
  Generator.collides (Generator._make_boundary t text)
    (Str.split_on "010" text) = false.
Proof.
  unfold Generator._make_boundary.
  set (bd := Str.replicate_char 15 "=" +:+ Generator.fmt t +:+ "==").
  set (lines := Str.split_on "010" text).
  assert (Str.forallb_char is_boundary_char bd = true) as Hbd.
  { unfold bd. rewrite !forallb_char_app. unfold Generator.fmt, Generator.str_N.
    rewrite forallb_char_app, boundary_chars_uint.
    now rewrite !boundary_chars_replicate. }
  destruct (find_boundary_steps (S (length lines)) lines bd 0)
    as (j & Hj & Hres & Hall & Hlast).
  change (candidate bd 0) with bd in Hres. change (N.of_nat 0) with 0%N in Hres.
  rewrite Hres.
  destruct (Nat.eq_dec j (S (length lines))) as [-> | Hne]; [|apply Hlast; lia].
  pose proof (colliding_candidates_bound bd lines 0 _ Hbd Hall). lia.
Qed.


(** A base directory that is the root: [b + os.sep] is [//], which no
    canonical path below [/] starts with, so every descendant is rejected. *)
Example root_base_rejects_descendants :
  _safe_read_file "/etc/passwd" (Some "/") Examples.unsandboxed_world
  = ([], Err (PathEscapeError "/etc/passwd")).
Proof. reflexivity. Qed.


(** * Further properties of the code *)

(** ** [_safe_read_file]: what a run may do *)







(** ** [os.path.abspath]: the path that is checked and opened *)

Lemma plain_name_is_name c : is_plain_name c = true → is_name c.
Proof.
  unfold is_plain_name, is_name. intros H.
  repeat (apply andb_true_iff in H as [H ?]).
  split; [assumption | now apply negb_true_iff].
Qed.

Lemma plain_names_are_names cs :
  Forall (λ c, is_plain_name c = true) cs → Forall is_name cs.
Proof.
  intros H. eapply Forall_impl; [exact H|]. intros c. apply plain_name_is_name.
Qed.

Lemma last_is_dotdot_plain acc :
  Forall (λ c, is_plain_name c = true) acc → PosixPath.last_is_dotdot acc = false.
Proof.
  intros H. destruct acc as [|a acc]; [reflexivity|].
  unfold PosixPath.last_is_dotdot.
  assert (In (List.last (a :: acc) "") (a :: acc)) as Hin.
  { clear H. revert a. induction acc as [|b acc IH]; intros a; [now left|].
    right. apply (IH b). }
  rewrite List.Forall_forall in H. specialize (H _ Hin).
  unfold is_plain_name in H. apply andb_true_iff in H as [_ H].
  now apply negb_true_iff in H.
Qed.

Lemma normpath_step_plain k acc comp :
  (1 ≤ k)%nat →
  Forall (λ c, is_plain_name c = true) acc →
  Str.contains_char "/" comp = false →
  Forall (λ c, is_plain_name c = true) (PosixPath.normpath_step k acc comp).
Proof.
  intros Hk Hacc Hcomp. unfold PosixPath.normpath_step.
  destruct (String.eqb comp "") eqn:He; [assumption|]. cbn [orb].
  destruct (String.eqb comp ".") eqn:Hd; [assumption|].
  rewrite (last_is_dotdot_plain acc Hacc), orb_false_r.
  destruct k as [|k]; [lia|]. cbn [Nat.eqb andb]. rewrite orb_false_r.
  destruct (String.eqb comp "..") eqn:Hdd; cbn [negb].
  - now apply Forall_removelast.
  - apply Forall_app_2; [assumption|]. constructor; [|constructor].
    unfold is_plain_name. rewrite Hcomp, Hd, Hdd.
    destruct comp; [discriminate He | reflexivity].
Qed.

Lemma normpath_fold_plain k comps acc :
  (1 ≤ k)%nat →
  Forall (λ c, is_plain_name c = true) acc →
  Forall (λ c, Str.contains_char "/" c = false) comps →
  Forall (λ c, is_plain_name c = true)
    (fold_left (PosixPath.normpath_step k) comps acc).
Proof.
  intros Hk. revert acc.
  induction comps as [|c comps IH]; intros acc Hacc Hc; [assumption|].
  inversion Hc; subst. cbn [fold_left]. apply IH; [|assumption].
  now apply normpath_step_plain.
Qed.

(** The normal form of an absolute path, spelled out. *)
Lemma normpath_abs s :
  PosixPath.isabs s = true →
  PosixPath.normpath s
  = canonical (PosixPath.initial_slashes s)
      (fold_left (PosixPath.normpath_step (PosixPath.initial_slashes s))
         (Str.split_on "/" s) []).
Proof.
  intros Habs. unfold PosixPath.normpath. rewrite (isabs_truthy _ Habs).
  cbn [negb]. unfold canonical.
  destruct (initial_slashes_abs s Habs) as [-> | ->]; reflexivity.
Qed.

Lemma fold_plain_names k names acc :
  Forall (λ c, is_plain_name c = true) names →
  fold_left (PosixPath.normpath_step k) names acc = acc ++ names.
Proof.
  intros H. revert acc.
  induction H as [|c names Hc Hn IH]; intros acc; [now rewrite app_nil_r|].
  cbn [fold_left]. rewrite IH. unfold PosixPath.normpath_step.
  unfold is_plain_name in Hc.
  repeat (apply andb_true_iff in Hc as [Hc ?]).
  destruct c as [|a c]; [discriminate|].
  replace (String.eqb (String a c) "") with false by reflexivity.
  cbn [orb]. destruct (String.eqb (String a c) "."); [discriminate|].
  destruct (String.eqb (String a c) ".."); [discriminate|].
  cbn [negb orb]. now rewrite <- app_assoc.
Qed.

Lemma initial_slashes_canonical k cs :
  k = 1%nat ∨ k = 2%nat → Forall is_name cs →
  PosixPath.initial_slashes (canonical k cs) = k.
Proof.
  intros Hk Hcs. unfold canonical.
  destruct cs as [|c cs].
  - destruct Hk as [-> | ->]; reflexivity.
  - inversion Hcs as [|? ? [Ht Hs] _]; subst.
    destruct c as [|a c]; [discriminate|].
    cbn [Str.contains_char] in Hs. apply orb_false_iff in Hs as [Ha _].
    assert (∃ r, Str.join "/" (String a c :: cs) = String a r) as [r ->].
    { destruct cs; [now exists c|].
      rewrite join_cons by done. rewrite sapp_cons. eauto. }
    unfold PosixPath.initial_slashes.
    destruct Hk as [-> | ->]; cbn [Str.replicate_char String.append Str.startswith];
      rewrite ?Ascii.eqb_refl; cbn [andb];
      rewrite (Ascii.eqb_sym "/" a), Ha; reflexivity.
Qed.

Lemma split_canonical k cs :
  Forall is_name cs →
  ∃ pre, Forall (λ c, c = "") pre ∧ Str.split_on "/" (canonical k cs) = pre ++ cs.
Proof.
  intros Hcs. unfold canonical. induction k as [|k (pre & Hpre & IH)].
  - cbn [Str.replicate_char]. rewrite sapp_nil_l.
    destruct cs as [|c cs].
    + exists [""]. split; [repeat constructor | reflexivity].
    + exists []. split; [constructor|].
      rewrite (split_on_join "/" (c :: cs)); [reflexivity | done |].
      eapply Forall_impl; [exact Hcs|]. now intros ? [_ ?].
  - exists ("" :: pre). split; [now constructor|].
    cbn [Str.replicate_char String.append Str.split_on].
    rewrite Ascii.eqb_refl. now rewrite IH.
Qed.

Lemma fold_skip_empty k pre acc :
  Forall (λ c, c = "") pre →
  fold_left (PosixPath.normpath_step k) pre acc = acc.
Proof.
  intros H. revert acc. induction H as [|c pre -> _ IH]; intros acc; [reflexivity|].
  cbn [fold_left]. now rewrite IH.
Qed.

Lemma normpath_canonical_plain k cs :
  k = 1%nat ∨ k = 2%nat →
  Forall (λ c, is_plain_name c = true) cs →
  PosixPath.normpath (canonical k cs) = canonical k cs.
Proof.
  intros Hk Hcs. pose proof (plain_names_are_names cs Hcs) as Hn.
  assert (PosixPath.isabs (canonical k cs) = true) as Habs.
  { unfold canonical. destruct Hk as [-> | ->]; reflexivity. }
  rewrite (normpath_abs _ Habs), (initial_slashes_canonical k cs Hk Hn).
  destruct (split_canonical k cs Hn) as (pre & Hpre & ->).
  rewrite fold_left_app, (fold_skip_empty k pre [] Hpre).
  now rewrite (fold_plain_names k cs [] Hcs).
Qed.

Lemma abspath_plain cwd path :
  PosixPath.isabs cwd = true →
  ∃ k cs, (k = 1%nat ∨ k = 2%nat)
          ∧ Forall (λ c, is_plain_name c = true) cs
          ∧ PosixPath.abspath cwd path = canonical k cs.
Proof.
  intros Hc.
  assert (∀ s, PosixPath.isabs s = true →
            ∃ k cs, (k = 1%nat ∨ k = 2%nat)
                    ∧ Forall (λ c, is_plain_name c = true) cs
                    ∧ PosixPath.normpath s = canonical k cs) as Hnorm.
  { intros s Hs. eexists _, _. split; [apply (initial_slashes_abs s Hs)|].
    split; [|apply (normpath_abs s Hs)].
    apply normpath_fold_plain; [|constructor|apply split_on_Forall].
    destruct (initial_slashes_abs s Hs) as [-> | ->]; lia. }
  unfold PosixPath.abspath. destruct (Str.startswith "/" path) eqn:Hp.
  - now apply Hnorm.
  - apply Hnorm. now apply join_abs.
Qed.




(** ** Relative paths of plain names stay inside the base directory *)

Lemma endswith_char_inv c s :
  Str.endswith_char c s = true → ∃ b, s = b +:+ String c "".
Proof.
  induction s as [|a s IH]; [discriminate|].
  cbn [Str.endswith_char]. destruct s as [|a' s].
  - intros H. apply Ascii.eqb_eq in H as ->. now exists "".
  - intros H. destruct (IH H) as [b ->]. now exists (String a b).
Qed.

Lemma initial_slashes_root_of s :
  PosixPath.initial_slashes s
  = match root_of s with
    | O => O
    | 2%nat => 2%nat
    | _ => 1%nat
    end.
Proof.
  unfold PosixPath.initial_slashes.
  destruct s as [|a [|b [|c s]]]; cbn [Str.startswith root_of];
    rewrite ?(Ascii.eqb_sym "/"); try reflexivity;
    repeat (destruct (Ascii.eqb _ "/"); cbn [andb negb]; try reflexivity).
Qed.

Lemma root_of_app_char b c r :
  c ≠ "/"%char → root_of (b +:+ String c r) = root_of b.
Proof.
  intros Hc. induction b as [|a b IH].
  - rewrite sapp_nil_l. cbn [root_of].
    now destruct (Ascii.eqb_spec c "/").
  - rewrite sapp_cons. cbn [root_of]. now rewrite IH.
Qed.

Lemma root_of_app_open b x :
  Str.truthy b = true → Str.endswith_char "/" b = false →
  root_of (b +:+ x) = root_of b.
Proof.
  induction b as [|a b IH]; [discriminate|]. intros _ He.
  rewrite sapp_cons. cbn [root_of].
  destruct (Ascii.eqb a "/") eqn:Ha; [|reflexivity].
  destruct b as [|a' b]; [cbn in He; congruence|].
  f_equal. apply IH; [reflexivity | exact He].
Qed.

Lemma join_names_head names :
  names ≠ [] → Forall (λ c, is_plain_name c = true) names →
  ∃ c r, Str.join "/" names = String c r ∧ c ≠ "/"%char.
Proof.
  intros Hne H. destruct names as [|n names]; [done|].
  inversion H as [|? ? Hn _]; subst. apply plain_name_is_name in Hn as [Ht Hs].
  destruct n as [|c n]; [discriminate|].
  cbn [Str.contains_char] in Hs. apply orb_false_iff in Hs as [Hc _].
  apply Ascii.eqb_neq in Hc.
  destruct names; [now exists c, n|].
  rewrite join_cons by done. rewrite sapp_cons. eauto.
Qed.

(** Joining plain names below an absolute directory and normalising is
    normalising the directory and appending the names. *)
Lemma normpath_join_plain base names :
  PosixPath.isabs base = true →
  names ≠ [] → Forall (λ c, is_plain_name c = true) names →
  ∃ k cb, (k = 1%nat ∨ k = 2%nat)
          ∧ Forall (λ c, is_plain_name c = true) cb
          ∧ PosixPath.normpath base = canonical k cb
          ∧ PosixPath.normpath (PosixPath.join base (Str.join "/" names))
            = canonical k (cb ++ names).
Proof.
  intros Habs Hne Hnames.
  destruct (join_names_head names Hne Hnames) as (c & r & Hjoin & Hc).
  assert (Str.split_on "/" (Str.join "/" names) = names) as Hsplit.
  { apply split_on_join; [assumption|].
    eapply Forall_impl; [exact Hnames|]. intros n Hn.
    now apply plain_name_is_name in Hn as [_ ?]. }
  set (k := PosixPath.initial_slashes base).
  set (cb := fold_left (PosixPath.normpath_step k) (Str.split_on "/" base) []).
  assert (k = 1%nat ∨ k = 2%nat) as Hk by apply (initial_slashes_abs base Habs).
  assert (Forall (λ c, is_plain_name c = true) cb) as Hcb.
  { apply normpath_fold_plain; [destruct Hk; lia | constructor | apply split_on_Forall]. }
  exists k, cb. split; [assumption|]. split; [assumption|].
  split; [apply (normpath_abs base Habs)|].
  rewrite (normpath_abs _ (join_abs base _ Habs)).
  assert (PosixPath.initial_slashes (PosixPath.join base (Str.join "/" names)) = k
          ∧ fold_left (PosixPath.normpath_step k)
              (Str.split_on "/" (PosixPath.join base (Str.join "/" names))) []
            = cb ++ names) as [-> ->]; [|reflexivity].
  unfold PosixPath.join, PosixPath.sep. rewrite Hjoin.
  cbn [Str.startswith]. rewrite (Ascii.eqb_sym "/" c).
  apply Ascii.eqb_neq in Hc. rewrite Hc. cbn [andb].
  apply Ascii.eqb_neq in Hc.
  rewrite (isabs_truthy _ Habs). cbn [negb orb].
  destruct (Str.endswith_char "/" base) eqn:He.
  - split.
    + unfold k. rewrite !initial_slashes_root_of.
      now rewrite (root_of_app_char base c r Hc).
    + destruct (endswith_char_inv _ _ He) as [b' Hb']. rewrite <- Hjoin.
      unfold cb. rewrite Hb', sapp_assoc.
      change (String "/" "" +:+ Str.join "/" names)
        with (String "/" (Str.join "/" names)).
      rewrite split_on_app, Hsplit, fold_left_app.
      rewrite (split_on_app "/" b' ""), fold_left_app.
      cbn [Str.split_on fold_left].
      replace (PosixPath.normpath_step k
                 (fold_left (PosixPath.normpath_step k) (Str.split_on "/" b') []) "")
        with (fold_left (PosixPath.normpath_step k) (Str.split_on "/" b') [])
        by reflexivity.
      now apply fold_plain_names.
  - split.
    + unfold k. rewrite !initial_slashes_root_of.
      now rewrite (root_of_app_open base _ (isabs_truthy _ Habs) He).
    + rewrite <- Hjoin. unfold cb.
      change ("/" +:+ Str.join "/" names) with (String "/" (Str.join "/" names)).
      rewrite split_on_app, Hsplit, fold_left_app.
      now apply fold_plain_names.
Qed.


(** X4: a relative path made of plain names (no empty name, no [.], no
    [..]) under an absolute base directory that is not a filesystem root
    is never rejected: [_resolve_attachment_path] joins it under the base
    directory, the canonical form of the result is the canonical base
    directory followed by the names, the containment test passes and the
    read does not fail with PathEscapeError. *)
Theorem plain_relative_path_passes (w : world) (names : list string) :
  PosixPath.isabs (base_dir_of w) = true →
  is_root (PosixPath.abspath (cwd w) (base_dir_of w)) = false →
  names ≠ [] →
  Forall (λ c, is_plain_name c = true) names →
  ∃ resolved,
    outcome (_resolve_attachment_path (Str.join "/" names) w) = Ok resolved
    ∧ PosixPath.abspath (cwd w) resolved
      = PosixPath.abspath (cwd w) (base_dir_of w) +:+ "/" +:+ Str.join "/" names
    ∧ containment_ok w resolved (Some (base_dir_of w)) = true
    ∧ ∀ q, outcome (_safe_read_file resolved (Some (base_dir_of w)) w)
           ≠ Err (PathEscapeError q).
Proof.
  intros Habs Hroot Hne Hnames.
  destruct (join_names_head names Hne Hnames) as (c & r & Hjoin & Hc).
  destruct (normpath_join_plain _ names Habs Hne Hnames)
    as (k & cb & Hk & Hcb & Hbase & Hres).
  assert (PosixPath.abspath (cwd w) (base_dir_of w) = canonical k cb) as Eb.
  { unfold PosixPath.abspath. unfold PosixPath.isabs, PosixPath.sep in Habs.
    now rewrite Habs. }
  assert (cb ≠ []) as Hcbne.
  { intros ->. rewrite Eb in Hroot. destruct Hk as [-> | ->]; discriminate. }
  exists (PosixPath.join (base_dir_of w) (Str.join "/" names)).
  assert (PosixPath.abspath (cwd w)
            (PosixPath.join (base_dir_of w) (Str.join "/" names))
          = canonical k (cb ++ names)) as Ep.
  { unfold PosixPath.abspath.
    pose proof (join_abs (base_dir_of w) (Str.join "/" names) Habs) as Hj.
    unfold PosixPath.isabs, PosixPath.sep in Hj. now rewrite Hj. }
  assert (inside (canonical k cb) (canonical k (cb ++ names)) = true) as Hin.
  { unfold inside. rewrite canonical_app by assumption.
    rewrite startswith_app. apply orb_true_r. }
  split; [|split; [|split]].
  - rewrite resolve_run. cbn [outcome snd]. rewrite Hjoin.
    unfold PosixPath.isabs, PosixPath.sep. cbn [Str.truthy Str.startswith].
    apply Ascii.eqb_neq in Hc. rewrite (Ascii.eqb_sym "/" c), Hc. reflexivity.
  - rewrite Ep, Eb, canonical_app by assumption.
    unfold PosixPath.sep. now rewrite sapp_assoc.
  - unfold containment_ok. cbn [default from_option id]. rewrite Ep, Eb, Hin.
    apply orb_true_r.
  - intros q. rewrite safe_read_run. cbn zeta. cbn [default from_option id].
    rewrite Ep, Eb, Hin. cbn [negb]. rewrite andb_false_r.
    destruct (max_mb_of w); [|discriminate].
    destruct (lookup_path w _) as [n|]; [|discriminate].
    destruct (st_size n >? _); [discriminate|].
    cbn. destruct (content n); discriminate.
Qed.

Lemma plain_relative_path_passes_witness :
  ∃ resolved,
    outcome (_resolve_attachment_path "out/report.pdf" Examples.bare_world)
    = Ok resolved
    ∧ PosixPath.abspath "/app" resolved = "/shared/out/report.pdf".
Proof.
  destruct (plain_relative_path_passes Examples.bare_world ["out"; "report.pdf"])
    as (resolved & H1 & H2 & _);
    [reflexivity | reflexivity | discriminate | repeat constructor |].
  exists resolved. split; [exact H1 | exact H2].
Defined.


(** ** Base64 payloads *)

Lemma is_ascii_encode_groups s : Str.is_ascii (Base64.encode_groups s) = true.
Proof.
  generalize (encode_groups_chars s). apply forallb_char_impl. intros c Hc.
  now apply alphabet_or_pad_facts in Hc as (-> & _).
Qed.

Lemma b64decode_b64encode s : Base64.b64decode (Base64.b64encode s) = Some s.
Proof.
  unfold Base64.b64decode, Base64.b64encode, Base64.a2b_base64.
  now rewrite is_ascii_encode_groups, a2b_loop_encode_groups.
Qed.

Lemma truthy_encode_groups s :
  Str.truthy (Base64.encode_groups s) = Str.truthy s.
Proof. destruct s as [|x [|y [|z r]]]; reflexivity. Qed.

(** X5: an item whose [content_base64] is the standard base64 encoding of
    [data] (with a filename and no path) resolves to exactly [data] when
    [data] is not empty.  The encoding of no bytes is the empty string,
    which counts as no source: an empty attachment cannot be sent inline
    and fails with MissingSourceError. *)
Theorem base64_source_round_trip (att : attachment_spec) (w : world)
    (data filename : string) :
  att !! "content_base64" = Some (Base64.b64encode data) →
  Str.otruthy (att !! "path") = false →
  att !! "filename" = Some filename →
  Str.truthy filename = true →
  resolve_attachment att w
  = if Str.truthy data
    then ([], Ok {| ra_filename := filename;
                    ra_mime_type :=
                      if Str.otruthy (att !! "mime_type")
                      then default "" (att !! "mime_type")
                      else or_octet_stream (guess_type w filename);
                    ra_data := data |})
    else ([], Err MissingSourceError).
Proof.
  intros Hc Hp Hf Htf. rewrite resolve_attachment_cases, Hc, Hp, Hf.
  cbn [Str.otruthy default from_option id]. unfold Base64.b64encode.
  rewrite truthy_encode_groups, Htf.
  destruct (Str.truthy data); [|reflexivity].
  rewrite base64_branch_run by exact Htf.
  cbn [default from_option id].
  change (Base64.b64decode (Base64.encode_groups data))
    with (Base64.b64decode (Base64.b64encode data)).
  now rewrite b64decode_b64encode.
Qed.

Lemma base64_source_round_trip_witness :
  resolve_attachment
    (<["filename" := "empty.bin"]> (<["content_base64" := Base64.b64encode ""]> ∅))
    Examples.bare_world
  = ([], Err MissingSourceError).
Proof.
  apply (base64_source_round_trip
           (<["filename" := "empty.bin"]>
              (<["content_base64" := Base64.b64encode ""]> ∅))
           Examples.bare_world "" "empty.bin"); reflexivity.
Defined.


Lemma a2b_loop_skip c q l p s :
  Ascii.eqb c Base64.pad = false → Base64.a2b c = None →
  Base64.a2b_loop q l p (String c s) = Base64.a2b_loop q l p s.
Proof. intros Hp Ha. cbn [Base64.a2b_loop]. now rewrite Hp, Ha. Qed.

(** Decoding an encoded chunk that is followed by more text: a chunk of
    whole groups is decoded and the decoder goes on, a padded chunk ends
    the input. *)
Lemma a2b_loop_chunk c rest :
  Base64.a2b_loop 0 0 0 (Base64.encode_groups c +:+ rest)
  = if Nat.eqb (String.length c mod 3) 0
    then String.append c <$> Base64.a2b_loop 0 0 0 rest
    else Some c.
Proof.
  induction c as [|x|x y|x y z r IH] using string_ind3.
  - cbn [String.length Nat.modulo]. rewrite sapp_nil_l.
    change (Nat.eqb (0 mod 3) 0) with true. cbn iota.
    now destruct (Base64.a2b_loop 0 0 0 rest).
  - change (Base64.encode_groups (String x ""))
      with (String (Base64.b2a (sextet1 x))
              (String (Base64.b2a (sextet2_last x)) "==")).
    rewrite !sapp_cons.
    rewrite (a2b_loop_read _ _ _ _ _ _ (reads_sextet1 x)).
    rewrite (a2b_loop_read _ _ _ _ _ _ (reads_sextet2_last x)).
    unfold Base64.cons_byte. rewrite byte1_of_sextets_last. reflexivity.
  - change (Base64.encode_groups (String x (String y "")))
      with (String (Base64.b2a (sextet1 x))
              (String (Base64.b2a (sextet2 x y))
                 (String (Base64.b2a (sextet3_last y)) "="))).
    rewrite !sapp_cons.
    rewrite (a2b_loop_read _ _ _ _ _ _ (reads_sextet1 x)).
    rewrite (a2b_loop_read _ _ _ _ _ _ (reads_sextet2 x y)).
    rewrite (a2b_loop_read _ _ _ _ _ _ (reads_sextet3_last y)).
    unfold Base64.cons_byte. rewrite byte1_of_sextets, byte2_of_sextets_last.
    reflexivity.
  - rewrite encode_groups_three, !sapp_cons.
    rewrite (a2b_loop_read _ _ _ _ _ _ (reads_sextet1 x)).
    rewrite (a2b_loop_read _ _ _ _ _ _ (reads_sextet2 x y)).
    rewrite (a2b_loop_read _ _ _ _ _ _ (reads_sextet3 y z)).
    rewrite (a2b_loop_read _ _ _ _ _ _ (reads_sextet4 z)).
    unfold Base64.cons_byte.
    rewrite IH, byte1_of_sextets, byte2_of_sextets, byte3_of_sextets.
    replace (String.length (String x (String y (String z r))) mod 3)%nat
      with (String.length r mod 3)%nat.
    + destruct (Nat.eqb (String.length r mod 3) 0); [|reflexivity].
      now destruct (Base64.a2b_loop 0 0 0 rest).
    + cbn [String.length].
      replace (S (S (S (String.length r)))) with (String.length r + 1 * 3)%nat by lia.
      now rewrite Nat.Div0.mod_add.
Qed.

Lemma chunks_go_short n room s :
  Str.truthy s = true → (String.length s ≤ room)%nat →
  Base64.chunks_go n room s = [s].
Proof.
  revert room. induction s as [|a s IH]; [discriminate|].
  intros room _ Hlen. cbn [String.length] in Hlen. cbn [Base64.chunks_go].
  destruct room as [|[|r]]; [lia| |].
  - destruct s; [reflexivity | cbn [String.length] in Hlen; lia].
  - destruct s as [|b s]; [reflexivity|].
    rewrite (IH (S r)); [reflexivity | reflexivity | lia].
Qed.

Lemma chunks_go_long n room x y :
  (1 ≤ room)%nat → String.length x = room →
  Base64.chunks_go n room (x +:+ y) = x :: Base64.chunks_go n n y.
Proof.
  revert room. induction x as [|a x IH]; intros room Hroom Hlen.
  - cbn [String.length] in Hlen. lia.
  - cbn [String.length] in Hlen. rewrite sapp_cons. cbn [Base64.chunks_go].
    destruct room as [|[|r]]; [lia| |].
    + destruct x; [reflexivity | cbn [String.length] in Hlen; lia].
    + rewrite (IH (S r)); [reflexivity | lia | lia].
Qed.

Lemma string_split_at n s :
  (n ≤ String.length s)%nat → ∃ x y, s = x +:+ y ∧ String.length x = n.
Proof.
  revert s. induction n as [|n IH]; intros s Hn.
  - now exists "", s.
  - destruct s as [|a s]; [cbn in Hn; lia|]. cbn [String.length] in Hn.
    destruct (IH s ltac:(lia)) as (x & y & -> & Hx).
    exists (String a x), y. split; [reflexivity | cbn; lia].
Qed.

Lemma length_app s t :
  String.length (s +:+ t) = (String.length s + String.length t)%nat.
Proof.
  induction s as [|a s IH]; [reflexivity|].
  rewrite sapp_cons. cbn [String.length]. now rewrite IH.
Qed.

Lemma a2b_loop_encodebytes s :
  Base64.a2b_loop 0 0 0 (Base64.encodebytes s) = Some s.
Proof.
  remember (String.length s) as m eqn:Hm.
  assert (String.length s ≤ m)%nat as Hle by lia. clear Hm.
  revert s Hle. induction m as [m IH] using lt_wf_ind. intros s Hle.
  unfold Base64.encodebytes, Base64.chunks.
  destruct (le_lt_dec (String.length s) 57) as [Hshort | Hlong].
  - destruct s as [|a s]; [reflexivity|].
    rewrite chunks_go_short by (reflexivity || assumption).
    cbn [map Str.join]. unfold Base64.b2a_base64.
    rewrite a2b_loop_chunk.
    destruct (Nat.eqb _ 0); [|reflexivity].
    match goal with |- _ <$> ?t = _ => change t with (Some "") end.
    cbn [fmap option_fmap option_map]. now rewrite sapp_nil_r.
  - destruct (string_split_at 57 s ltac:(lia)) as (x & y & -> & Hx).
    rewrite length_app in Hle, Hlong.
    rewrite chunks_go_long by (lia || assumption).
    cbn [map]. rewrite join_empty_cons. unfold Base64.b2a_base64 at 1.
    rewrite sapp_assoc, a2b_loop_chunk, Hx.
    change (Nat.eqb (57 mod 3) 0) with true. cbn iota.
    rewrite sapp_cons, sapp_nil_l, a2b_loop_skip by reflexivity.
    fold (Base64.chunks 57 y). fold (Base64.encodebytes y).
    rewrite (IH (String.length y)); [reflexivity | lia | lia].
Qed.

Lemma is_ascii_encodebytes s : Str.is_ascii (Base64.encodebytes s) = true.
Proof.
  generalize (encodebytes_chars s). apply forallb_char_impl. intros c Hc.
  apply orb_true_iff in Hc as [Hc | Hc].
  - now apply alphabet_or_pad_facts in Hc as (-> & _).
  - apply Ascii.eqb_eq in Hc as ->. reflexivity.
Qed.

Lemma b64decode_encodebytes s :
  Base64.b64decode (Base64.encodebytes s) = Some s.
Proof.
  unfold Base64.b64decode, Base64.a2b_base64.
  now rewrite is_ascii_encodebytes, a2b_loop_encodebytes.
Qed.


(** ** The parts of the message *)

(** X6: Whatever the bytes of an attachment and whatever the text of the
    body, the part built for them carries them in base64: the part is
    marked as an attachment, and decoding its payload gives the bytes
    back. *)
Theorem encoded_parts_decode_back (r : resolved_attachment) (text subtype : string) :
  Base64.b64decode (payload (attachment_part r)) = Some (ra_data r)
  ∧ Parser.is_attachment (attachment_part r) = true
  ∧ Parser.get_payload_decoded (attachment_part r) = Some (ra_data r)
  ∧ Parser.is_attachment (MIMEText text subtype) = false
  ∧ Parser.get_payload_decoded (MIMEText text subtype) = Some text.
Proof.
  assert (payload (attachment_part r) = Base64.encodebytes (ra_data r)) as Hp.
  { unfold attachment_part. now destruct (split_mime_type (ra_mime_type r)). }
  assert (Parser.main_value "content-transfer-encoding" (headers (attachment_part r))
          = Some "base64") as Hcte.
  { unfold attachment_part. now destruct (split_mime_type (ra_mime_type r)). }
  split; [|split; [|split; [|split]]].
  - rewrite Hp. apply b64decode_encodebytes.
  - unfold attachment_part. destruct (split_mime_type (ra_mime_type r)).
    unfold Parser.is_attachment, Parser.main_value.
    cbn [headers Generator.get_header].
    change (Str.lower "Content-Type" =? "content-disposition")%string with false.
    change (Str.lower "MIME-Version" =? "content-disposition")%string with false.
    change (Str.lower "Content-Transfer-Encoding" =? "content-disposition")%string
      with false.
    change (Str.lower "Content-Disposition" =? "content-disposition")%string with true.
    cbn iota. reflexivity.
  - unfold Parser.get_payload_decoded. rewrite Hcte, Hp.
    rewrite bool_decide_eq_true_2 by reflexivity. apply b64decode_encodebytes.
  - reflexivity.
  - unfold Parser.get_payload_decoded.
    change (Parser.main_value "content-transfer-encoding" (headers (MIMEText text subtype)))
      with (Some "base64").
    rewrite bool_decide_eq_true_2 by reflexivity. apply b64decode_encodebytes.
Qed.


Lemma split_first_slash_joins s :
  let '(h, t) := split_first_slash s in
  Str.contains_char "/" h = false
  ∧ match t with
    | Some t' => s = h +:+ "/" +:+ t' ∧ Str.contains_char "/" s = true
    | None => s = h ∧ Str.contains_char "/" s = false
    end.
Proof.
  induction s as [|a s IH]; [now cbn|].
  cbn [split_first_slash Str.contains_char].
  destruct (Ascii.eqb a "/") eqn:Ha.
  - apply Ascii.eqb_eq in Ha as ->. now cbn.
  - destruct (split_first_slash s) as [h t]. destruct IH as [Hh Ht].
    cbn [Str.contains_char]. rewrite Ha, Hh. split; [reflexivity|].
    destruct t as [t'|]; destruct Ht as [Hs Hc]; rewrite Hc.
    + split; [|reflexivity]. rewrite sapp_cons. now f_equal.
    + split; [now f_equal | reflexivity].
Qed.

(** X7: The [Content-Type] of an attachment part is the MIME type of the
    attachment, unchanged, when that type has a slash; a type without a
    slash is completed by the subtype [octet-stream].  The main type
    never holds a slash. *)
Theorem attachment_content_type (r : resolved_attachment) :
  Generator.get_header "content-type" (headers (attachment_part r))
  = Some (if Str.contains_char "/" (ra_mime_type r)
          then ra_mime_type r
          else ra_mime_type r +:+ "/octet-stream")
  ∧ Str.contains_char "/" (fst (split_mime_type (ra_mime_type r))) = false.
Proof.
  unfold attachment_part, split_mime_type.
  pose proof (split_first_slash_joins (ra_mime_type r)) as H.
  destruct (split_first_slash (ra_mime_type r)) as [h t].
  destruct H as [Hh Ht].
  destruct t as [t'|]; destruct Ht as [Hs Hc]; rewrite Hc;
    cbn [headers Generator.get_header fst];
    change (Str.lower "Content-Type" =? "content-type")%string with true;
    cbn iota; (split; [|exact Hh]); f_equal.
  - now rewrite Hs.
  - now rewrite Hs.
Qed.

Lemma strip_quoted_id s :
  Str.strip (dquote +:+ s +:+ dquote) = dquote +:+ s +:+ dquote.
Proof.
  unfold Str.strip, dquote. rewrite sapp_cons, sapp_nil_l. cbn [Str.lstrip].
  replace (Str.is_space "034") with false by reflexivity.
  change (String "034" (s +:+ String "034" ""))
    with (String "034" s +:+ String "034" "").
  now rewrite rstrip_ends.
Qed.




(** ** The loop over the attachments *)

Lemma attach_all_cons att rest w :
  attach_all (att :: rest) w =
  match resolve_attachment att w with
  | (t, Ok r) =>
      match attach_all rest w with
      | (t', Ok ps) => (t ++ t', Ok (attachment_part r :: ps))
      | (t', Err e) => (t ++ t', Err e)
      end
  | (t, Err e) => (t, Err e)
  end.
Proof.
  cbn [attach_all]. rewrite run_bind.
  destruct (resolve_attachment att w) as [t [r|e]]; [|reflexivity].
  rewrite run_bind. destruct (attach_all rest w) as [t' [ps|e]]; [|reflexivity].
  rewrite run_ret. now rewrite app_nil_r.
Qed.

Lemma attach_all_ok atts w ps :
  outcome (attach_all atts w) = Ok ps →
  ∃ rs,
    Forall2 (λ att r, outcome (resolve_attachment att w) = Ok r) atts rs
    ∧ ps = map attachment_part rs
    ∧ trace (attach_all atts w)
      = concat (map (λ att, trace (resolve_attachment att w)) atts).
Proof.
  revert ps. induction atts as [|att rest IH]; intros ps H.
  - cbn in H. injection H as <-. exists []. repeat split. constructor.
  - rewrite attach_all_cons in H |- *.
    destruct (resolve_attachment att w) as [t [r|e]] eqn:Hr; [|discriminate].
    destruct (attach_all rest w) as [t' [ps'|e]] eqn:Hrest; [|discriminate].
    cbn in H. injection H as <-.
    destruct (IH ps' eq_refl) as (rs & Hall & -> & Ht).
    exists (r :: rs). split; [|split].
    + constructor; [now rewrite Hr | exact Hall].
    + reflexivity.
    + cbn [map concat]. rewrite Hr. cbn [trace fst] in *. now rewrite Ht.
Qed.

Lemma attach_all_first_failure atts1 att atts2 w e :
  Forall (λ a, ∃ r, outcome (resolve_attachment a w) = Ok r) atts1 →
  outcome (resolve_attachment att w) = Err e →
  attach_all (atts1 ++ att :: atts2) w
  = (concat (map (λ a, trace (resolve_attachment a w)) atts1)
       ++ trace (resolve_attachment att w),
     Err e).
Proof.
  intros Hall He. induction Hall as [|a atts1 [r Ha] _ IH].
  - cbn [app map concat]. rewrite attach_all_cons.
    destruct (resolve_attachment att w) as [t [r|e']]; [discriminate|].
    cbn in He. now injection He as ->.
  - cbn [app map concat]. rewrite attach_all_cons, IH.
    destruct (resolve_attachment a w) as [t [r'|e']]; [|discriminate].
    cbn [trace fst]. now rewrite app_assoc.
Qed.

(** X9: A message that is assembled holds the text part first and then
    one part per attachment item, in the order of the request, each part
    made from the resolution of its own item; the system calls of the
    run are those of the items, in order, and a request without
    attachments makes none. *)
Theorem parts_follow_the_request (req : send_request) (w : world) (m : multipart) :
  outcome (assemble req w) = Ok m →
  ∃ rs,
    Forall2 (λ att r, outcome (resolve_attachment att w) = Ok r)
      (attachments req) rs
    ∧ subparts m
      = MIMEText (body req)
          (if String.eqb (body_format req) "html" then "html" else "plain")
        :: map attachment_part rs
    ∧ mp_headers m
      = [("Content-Type", "multipart/mixed"); ("MIME-Version", "1.0");
         ("To", to req); ("Subject", subject req)]
    ∧ trace (assemble req w)
      = concat (map (λ att, trace (resolve_attachment att w)) (attachments req)).
Proof.
  unfold assemble. rewrite run_bind.
  destruct (attach_all (attachments req) w) as [t [ps|e]] eqn:Hps; [|discriminate].
  rewrite run_ret. cbn [outcome snd trace fst]. intros H. injection H as <-.
  destruct (attach_all_ok (attachments req) w ps) as (rs & Hall & -> & Ht).
  { now rewrite Hps. }
  exists rs. rewrite Hps in Ht. cbn [trace fst] in Ht.
  cbn [subparts mp_headers]. now rewrite app_nil_r.
Qed.

Lemma parts_follow_the_request_witness :
  ∃ rs,
    Forall2 (λ att r, outcome (resolve_attachment att Examples.std_world) = Ok r)
      (attachments Examples.hello_request) rs
    ∧ map ra_data rs = ["hello"].
Proof.
  destruct (parts_follow_the_request Examples.hello_request Examples.std_world
              (match outcome (assemble Examples.hello_request Examples.std_world) with
               | Ok m => m
               | Err _ => {| mp_headers := []; subparts := [] |}
               end))
    as (rs & Hall & _).
  { unfold Examples.hello_request. now rewrite hello_assemble. }
  exists rs. split; [exact Hall|].
  unfold Examples.hello_request in Hall. cbn [attachments] in Hall.
  inversion Hall as [|a r l rs' Hr Hnil]; subst. inversion Hnil; subst.
  rewrite hello_attachment_run in Hr by reflexivity. cbn in Hr.
  injection Hr as <-. reflexivity.
Defined.

(** X10: The first item that is rejected ends the run with its own
    error: no message is produced, the items after it are not looked
    at, and the system calls made are those of the items up to it. *)
Theorem first_rejected_item_decides (token : N) (req : send_request) (w : world)
    (atts1 atts2 : list attachment_spec) (att : attachment_spec) (e : error) :
  attachments req = atts1 ++ att :: atts2 →
  Forall (λ a, ∃ r, outcome (resolve_attachment a w) = Ok r) atts1 →
  outcome (resolve_attachment att w) = Err e →
  build_raw_email token req w
  = (concat (map (λ a, trace (resolve_attachment a w)) atts1)
       ++ trace (resolve_attachment att w),
     Err e).
Proof.
  intros Hreq Hall He. rewrite build_run.
  unfold assemble. rewrite run_bind, Hreq.
  rewrite (attach_all_first_failure atts1 att atts2 w e Hall He).
  reflexivity.
Qed.

Lemma first_rejected_item_decides_witness :
  build_raw_email 0
    {| to := "a@example.com"; subject := "Hi"; body := "text";
       body_format := "plain";
       attachments :=
         [Examples.hello_attachment; ∅;
          <["path" := "/shared/report.pdf"]> ∅] |}
    Examples.std_world
  = ([], Err MissingSourceError).
Proof.
  refine (first_rejected_item_decides 0
            {| to := "a@example.com"; subject := "Hi"; body := "text";
               body_format := "plain";
               attachments :=
                 [Examples.hello_attachment; ∅;
                  <["path" := "/shared/report.pdf"]> ∅] |}
            Examples.std_world
            [Examples.hello_attachment] [<["path" := "/shared/report.pdf"]> ∅]
            ∅ MissingSourceError eq_refl _ _).
  - constructor; [|constructor].
    eexists. now rewrite hello_attachment_run.
  - reflexivity.
Defined.


(** ** What a resolved attachment holds *)

Lemma otruthy_default o : Str.otruthy o = true → Str.truthy (default "" o) = true.
Proof. now destruct o. Qed.

Lemma or_octet_stream_truthy g : Str.truthy (or_octet_stream g) = true.
Proof.
  unfold or_octet_stream. destruct (Str.otruthy g) eqn:Hg; [|reflexivity].
  now apply otruthy_default.
Qed.

Lemma basename_no_slash p : Str.contains_char "/" (PosixPath.basename p) = false.
Proof.
  unfold PosixPath.basename.
  pose proof (split_on_Forall "/" p) as H.
  induction H as [|x l Hx Hl IH]; [reflexivity|].
  destruct l; [exact Hx | exact IH].
Qed.

(** X11: An attachment that is accepted never has an empty MIME type:
    the type is the one of the item when that is given, else the type
    guessed from the file name, else [application/octet-stream].  Its
    file name is the one of the item when that is given; only a path
    item may leave it out, and then the name is the last component of
    the path and holds no slash. *)
Theorem resolved_attachment_fields (att : attachment_spec) (w : world)
    (r : resolved_attachment) :
  outcome (resolve_attachment att w) = Ok r →
  Str.truthy (ra_mime_type r) = true
  ∧ ra_mime_type r
    = (if Str.otruthy (att !! "mime_type") then default "" (att !! "mime_type")
       else if Str.otruthy (guess_type w (ra_filename r))
            then default "" (guess_type w (ra_filename r))
            else "application/octet-stream")
  ∧ (if Str.otruthy (att !! "filename")
     then ra_filename r = default "" (att !! "filename")
     else Str.otruthy (att !! "path") = true
          ∧ Str.contains_char "/" (ra_filename r) = false).
Proof.
  rewrite resolve_attachment_cases.
  assert (∀ f, Str.truthy
                 (if Str.otruthy (att !! "mime_type")
                  then default "" (att !! "mime_type")
                  else or_octet_stream (guess_type w f)) = true) as Hm.
  { intros f. destruct (Str.otruthy (att !! "mime_type")) eqn:E.
    - now apply otruthy_default.
    - apply or_octet_stream_truthy. }
  destruct (Str.otruthy (att !! "content_base64")) eqn:Hc,
           (Str.otruthy (att !! "path")) eqn:Hp; try discriminate.
  - destruct (Str.otruthy (att !! "filename")) eqn:Hf; [|discriminate].
    rewrite base64_branch_run by exact Hf.
    destruct (Base64.b64decode _) as [data|]; [|discriminate].
    cbn [outcome snd]. intros H. injection H as <-.
    cbn [ra_mime_type ra_filename]. split; [apply Hm|]. split; reflexivity.
  - rewrite path_branch_run. cbn zeta.
    destruct (_safe_read_file _ _ w) as [t [data|e]]; [|discriminate].
    cbn [outcome snd]. intros H. injection H as <-.
    cbn [ra_mime_type ra_filename]. split; [apply Hm|]. split; [reflexivity|].
    destruct (Str.otruthy (att !! "filename")); [reflexivity|].
    split; [reflexivity | apply basename_no_slash].
Qed.

Lemma resolved_attachment_fields_witness :
  Str.truthy "application/pdf" = true
  ∧ "application/pdf" = "application/pdf"
  ∧ (Str.otruthy (Some "/shared/report.pdf") = true
     ∧ Str.contains_char "/" "report.pdf" = false).
Proof.
  exact (resolved_attachment_fields (<["path" := "/shared/report.pdf"]> ∅)
           Examples.std_world
           {| ra_filename := "report.pdf"; ra_mime_type := "application/pdf";
              ra_data := "%PDF" |} eq_refl).
Defined.


(** ** Authentication *)

Import Service.

Ltac service_unfold :=
  unfold get_gmail_service;
  cbv [mbind IO_bind mret IO_ret throw os_path_exists load_token
       creds_refresh login write_token build_service].

Lemma get_gmail_service_no_token s cl w :
  path_exists cl (TOKEN_FILE s) w = false →
  path_exists cl (CREDENTIALS_FILE s) w = false →
  get_gmail_service s cl w
  = ([ActExists (TOKEN_FILE s) false; ActExists (CREDENTIALS_FILE s) false], w,
     inl (CredentialsNotFound (CREDENTIALS_FILE s))).
Proof.
  intros Ht Hc. service_unfold. rewrite Ht. cbn. rewrite Hc. reflexivity.
Qed.


Ltac service_cases :=
  repeat match goal with
         | |- context [match ?x with _ => _ end] =>
             match type of x with
             | bool => destruct x eqn:?
             | option _ => destruct x eqn:?
             end; cbn
         end.

(** X12: The error about the missing client secrets is raised exactly
    when they are needed and absent: there is no file of client secrets,
    and the token file is absent or holds credentials that are neither
    valid nor refreshable.  Nothing has been written, refreshed or asked
    of the user by then. *)
Theorem credentials_file_needed (s : settings) (cl : client) (w : world) :
  let r := get_gmail_service s cl w in
  (answer r = inl (CredentialsNotFound (CREDENTIALS_FILE s))
   ↔ path_exists cl (CREDENTIALS_FILE s) w = false
     ∧ (path_exists cl (TOKEN_FILE s) w = false
        ∨ ∃ c, path_exists cl (TOKEN_FILE s) w = true
               ∧ from_authorized_user_file cl (TOKEN_FILE s) w = Some c
               ∧ valid c = false
               ∧ expired c && Str.otruthy (refresh_token c) = false))
  ∧ (answer r = inl (CredentialsNotFound (CREDENTIALS_FILE s)) →
     host_after r = w
     ∧ existsb (λ a, is_write a || is_refresh a || is_login a || is_send a)
         (actions r) = false).
Proof.
  cbn zeta. service_unfold.
  destruct (path_exists cl (TOKEN_FILE s) w) eqn:Ht; cbn.
  - destruct (from_authorized_user_file cl (TOKEN_FILE s) w) as [c|] eqn:Hl; cbn.
    + destruct (valid c) eqn:Hv; cbn.
      * split.
        -- split.
           ++ destruct (build cl c); discriminate.
           ++ intros [_ [H | (c' & _ & Hc' & Hv' & _)]]; [discriminate|].
              injection Hc' as <-. congruence.
        -- destruct (build cl c); discriminate.
      * destruct (expired c && Str.otruthy (refresh_token c)) eqn:Hr; cbn.
        -- split.
           ++ split.
              ** service_cases; discriminate.
              ** intros [_ [H | (c' & _ & Hc' & _ & Hr')]]; [discriminate|].
                 injection Hc' as <-. congruence.
           ++ service_cases; discriminate.
        -- destruct (path_exists cl (CREDENTIALS_FILE s) w) eqn:Hc; cbn.
           ++ split.
              ** split.
                 --- service_cases; discriminate.
                 --- intros [H _]; discriminate.
              ** service_cases; discriminate.
           ++ split; [|auto]. split; [|reflexivity].
              intros _. split; [reflexivity|]. right. exists c. auto.
    + split.
      * split; [discriminate|].
        intros [_ [H | (c' & _ & Hc' & _)]]; discriminate.
      * discriminate.
  - destruct (path_exists cl (CREDENTIALS_FILE s) w) eqn:Hc; cbn.
    + split.
      * split.
        -- service_cases; discriminate.
        -- intros [H _]; discriminate.
      * service_cases; discriminate.
    + split; [|auto]. split; [|reflexivity]. intros _. auto.
Qed.


Lemma credentials_file_needed_witness :
  answer (get_gmail_service (load_settings ∅) Examples.unconfigured_client
            Examples.bare_world)
  = inl (CredentialsNotFound "credentials.json").
Proof.
  refine (proj2 (proj1 (credentials_file_needed (load_settings ∅)
                          Examples.unconfigured_client Examples.bare_world)) _).
  split; [reflexivity | left; reflexivity].
Defined.




(** ** The tool *)

Lemma get_gmail_service_never_sends s cl w :
  existsb (λ a, is_send a || match a with ActSystem _ => true | _ => false end)
    (actions (get_gmail_service s cl w)) = false.
Proof.
  service_unfold.
  destruct (path_exists cl (TOKEN_FILE s) w); cbn; service_cases; reflexivity.
Qed.

Lemma existsb_is_send_system t : existsb is_send (map ActSystem t) = false.
Proof. induction t as [|e t IH]; [reflexivity | exact IH]. Qed.

Lemma filter_is_send_system t : filter (λ a, is_send a = true) (map ActSystem t) = [].
Proof. induction t as [|e t IH]; [reflexivity | exact IH]. Qed.

Lemma existsb_weaken {A} (f g : A → bool) l :
  (∀ a, f a = true → g a = true) → existsb g l = false → existsb f l = false.
Proof.
  intros Hfg H. induction l as [|a l IH]; [reflexivity|].
  cbn in *. apply orb_false_iff in H as [Ha Hl]. rewrite (IH Hl), orb_false_r.
  destruct (f a) eqn:E; [|reflexivity]. now rewrite (Hfg a E) in Ha.
Qed.

Lemma filter_none {A} (f : A → bool) l :
  existsb f l = false → filter (λ a, f a = true) l = [].
Proof.
  induction l as [|a l IH]; [reflexivity|]. cbn [existsb]. intros H.
  apply orb_false_iff in H as [Ha Hl]. rewrite filter_cons, (IH Hl).
  destruct (decide (f a = true)) as [E|]; [congruence | reflexivity].
Qed.

Lemma send_gmail_run token s cl to_ subject_ body_ body_format_ attachments_ w :
  send_gmail token s cl to_ subject_ body_ body_format_ attachments_ w =
  match get_gmail_service s cl w with
  | (t, w', inl e) => (t, w', inl e)
  | (t, w', inr c) =>
      match build_raw_email token
              {| to := to_; subject := subject_; body := body_;
                 body_format := body_format_;
                 attachments := default [] attachments_ |} w' with
      | (t2, Err e) => (t ++ map ActSystem t2, w', inl (MessageError e))
      | (t2, Ok raw) =>
          (t ++ map ActSystem t2 ++ [ActSend raw], w',
           match execute_send cl c raw with
           | Some id => inr {| ok := true; message_id := id |}
           | None => inl (ClientError "execute")
           end)
      end
  end.
Proof.
  unfold send_gmail. cbv [mbind IO_bind mret IO_ret run_message messages_send].
  destruct (get_gmail_service s cl w) as [[t w'] [e|c]]; [reflexivity|].
  destruct (build_raw_email _ _ w') as [t2 [raw|e]]; [|reflexivity].
  rewrite app_nil_r. now destruct (execute_send cl c raw).
Qed.

(** X14: Authentication comes first and the checks of the attachments
    second: when the message is rejected after a service was obtained,
    the tool fails with the error of the message and nothing is sent,
    but what authentication did to the host (a token file written after
    a refresh or a login) stays done. *)
Theorem rejected_message_is_not_sent (token : N) (s : settings) (cl : client)
    (to_ subject_ body_ body_format_ : string)
    (attachments_ : option (list attachment_spec)) (w : world)
    (c : credentials) (e : error) :
  let auth := get_gmail_service s cl w in
  let built :=
    build_raw_email token
      {| to := to_; subject := subject_; body := body_;
         body_format := body_format_;
         attachments := default [] attachments_ |} (host_after auth) in
  let r := send_gmail token s cl to_ subject_ body_ body_format_ attachments_ w in
  answer auth = inr c →
  outcome built = Err e →
  answer r = inl (MessageError e)
  ∧ existsb is_send (actions r) = false
  ∧ host_after r = host_after auth
  ∧ actions r = actions auth ++ map ActSystem (trace built).
Proof.
  cbn zeta. intros Hauth Hbuilt. rewrite send_gmail_run.
  pose proof (get_gmail_service_never_sends s cl w) as Hns.
  destruct (get_gmail_service s cl w) as [[t w'] [e'|c']]; [discriminate|].
  cbn [host_after actions answer fst snd] in *.
  destruct (build_raw_email _ _ w') as [t2 [raw|e']]; [discriminate|].
  cbn in Hbuilt. injection Hbuilt as ->.
  cbn [host_after actions answer fst snd trace].
  repeat split. rewrite existsb_app, existsb_is_send_system, orb_false_r.
  eapply existsb_weaken; [|exact Hns]. intros a Ha. cbn. now rewrite Ha.
Qed.

Lemma rejected_message_is_not_sent_witness :
  actions
    (send_gmail 0 (load_settings ∅) Examples.first_run_client
       "a@example.com" "Hi" "text" "plain"
       (Some [<["path" := "/etc/passwd"]> ∅]) Examples.bare_world)
  = [ActExists "token.json" false; ActExists "credentials.json" true;
     ActLogin "credentials.json"; ActWrite "token.json" "{}"; ActBuild;
     ActSystem (EvGetenv "ATTACHMENTS_BASE_DIR" "/shared");
     ActSystem (EvGetenv "ATTACHMENTS_BASE_DIR" "/shared")].
Proof.
  assert (answer (get_gmail_service (load_settings ∅) Examples.first_run_client
                    Examples.bare_world)
          = inr Examples.fresh_credentials) as Hauth by reflexivity.
  assert (outcome
            (build_raw_email 0
               {| to := "a@example.com"; subject := "Hi"; body := "text";
                  body_format := "plain";
                  attachments := default [] (Some [<["path" := "/etc/passwd"]> ∅]) |}
               (host_after
                  (get_gmail_service (load_settings ∅) Examples.first_run_client
                     Examples.bare_world)))
          = Err (PathEscapeError "/etc/passwd")) as Hbuilt
    by (vm_compute; reflexivity).
  destruct (rejected_message_is_not_sent 0 (load_settings ∅)
              Examples.first_run_client "a@example.com" "Hi" "text" "plain"
              (Some [<["path" := "/etc/passwd"]> ∅]) Examples.bare_world
              Examples.fresh_credentials (PathEscapeError "/etc/passwd")
              Hauth Hbuilt)
    as (_ & _ & _ & H).
  rewrite H. vm_compute. reflexivity.
Defined.

(** X15: A message is sent only after authentication succeeded and the
    whole message was built, on the host as authentication left it; it
    is sent once, it is the message [build_raw_email] returned, and the
    answer of the tool is the one of that call: the [id] of the answer of
    Google with [ok] set, or the error of the call. *)
Theorem one_send_of_the_built_message (token : N) (s : settings) (cl : client)
    (to_ subject_ body_ body_format_ : string)
    (attachments_ : option (list attachment_spec)) (w : world) (raw : string) :
  let auth := get_gmail_service s cl w in
  let built :=
    build_raw_email token
      {| to := to_; subject := subject_; body := body_;
         body_format := body_format_;
         attachments := default [] attachments_ |} (host_after auth) in
  let r := send_gmail token s cl to_ subject_ body_ body_format_ attachments_ w in
  In (ActSend raw) (actions r) →
  ∃ c,
    answer auth = inr c
    ∧ outcome built = Ok raw
    ∧ filter (λ a, is_send a = true) (actions r) = [ActSend raw]
    ∧ actions r = actions auth ++ map ActSystem (trace built) ++ [ActSend raw]
    ∧ answer r
      = match execute_send cl c raw with
        | Some id => inr {| ok := true; message_id := id |}
        | None => inl (ClientError "execute")
        end.
Proof.
  cbn zeta. rewrite send_gmail_run.
  pose proof (get_gmail_service_never_sends s cl w) as Hns.
  assert (existsb is_send (actions (get_gmail_service s cl w)) = false) as Hns'.
  { eapply existsb_weaken; [|exact Hns]. intros a Ha. cbn. now rewrite Ha. }
  clear Hns.
  assert (∀ l, existsb is_send l = false → ¬ In (ActSend raw) l) as Hnot.
  { intros l Hl Hin.
    assert (existsb is_send l = true) as E
      by (apply existsb_exists; exists (ActSend raw); auto).
    congruence. }
  destruct (get_gmail_service s cl w) as [[t w'] [e'|c]];
    cbn [host_after actions answer fst snd] in *.
  { intros Hin. now apply Hnot in Hin. }
  destruct (build_raw_email _ _ w') as [t2 [raw'|e']];
    cbn [host_after actions answer fst snd trace outcome].
  - intros Hin. apply in_app_or in Hin as [Hin | Hin]; [now apply Hnot in Hin|].
    apply in_app_or in Hin as [Hin | Hin].
    { apply Hnot in Hin; [done | apply existsb_is_send_system]. }
    destruct Hin as [Hin | []]. injection Hin as ->.
    exists c. repeat split.
    rewrite !filter_app, (filter_none is_send t Hns'), filter_is_send_system.
    reflexivity.
  - intros Hin. apply in_app_or in Hin as [Hin | Hin]; [now apply Hnot in Hin|].
    apply Hnot in Hin; [done | apply existsb_is_send_system].
Qed.

Lemma one_send_of_the_built_message_witness :
  ∃ raw,
    filter (λ a, is_send a = true)
      (actions
         (send_gmail 0 (load_settings ∅) Examples.first_run_client
            "a@example.com" "Hi" "text" "plain" None Examples.bare_world))
    = [ActSend raw]
    ∧ answer
        (send_gmail 0 (load_settings ∅) Examples.first_run_client
           "a@example.com" "Hi" "text" "plain" None Examples.bare_world)
      = inr {| ok := true; message_id := Some "18c2a" |}.
Proof.
  pose (r := send_gmail 0 (load_settings ∅) Examples.first_run_client
               "a@example.com" "Hi" "text" "plain" None Examples.bare_world).
  assert (∃ raw, In (ActSend raw) (actions r)) as [raw Hin].
  { eexists. vm_compute. do 5 right. left. reflexivity. }
  destruct (one_send_of_the_built_message 0 (load_settings ∅)
              Examples.first_run_client "a@example.com" "Hi" "text" "plain"
              None Examples.bare_world raw Hin)
    as (c & _ & _ & Hf & _ & Ha).
  exists raw. split; [exact Hf|]. rewrite Ha. reflexivity.
Defined.


(** ** What steers a read and what does not *)

(** X16: For an item that names a path, the file name and the MIME type
    given with it are labels only: two items with the same path make the
    same system calls and are accepted or rejected alike, with the same
    error or the same bytes. *)
Theorem labels_do_not_steer_the_read (att1 att2 : attachment_spec) (w : world) :
  att1 !! "path" = att2 !! "path" →
  Str.otruthy (att1 !! "content_base64") = Str.otruthy (att2 !! "content_base64") →
  Str.otruthy (att1 !! "path") = true →
  trace (resolve_attachment att1 w) = trace (resolve_attachment att2 w)
  ∧ match outcome (resolve_attachment att1 w),
          outcome (resolve_attachment att2 w) with
    | Ok r1, Ok r2 => ra_data r1 = ra_data r2
    | Err e1, Err e2 => e1 = e2
    | _, _ => False
    end.
Proof.
  intros Hp Hc Ht. rewrite !resolve_attachment_cases, <- Hp, <- Hc, Ht.
  destruct (Str.otruthy (att1 !! "content_base64")); [now split|].
  rewrite !path_branch_run. cbn zeta.
  destruct (_safe_read_file _ _ w) as [t [data|e]]; now split.
Qed.

Lemma labels_do_not_steer_the_read_witness :
  trace (resolve_attachment
           (<["filename" := "/etc/shadow"]> (<["path" := "report.pdf"]> ∅))
           Examples.std_world)
  = trace (resolve_attachment (<["path" := "report.pdf"]> ∅) Examples.std_world).
Proof.
  refine (proj1 (labels_do_not_steer_the_read
                   (<["filename" := "/etc/shadow"]> (<["path" := "report.pdf"]> ∅))
                   (<["path" := "report.pdf"]> ∅) Examples.std_world _ _ _));
    reflexivity.
Defined.

Lemma inline_item_run att w w' :
  Str.otruthy (att !! "path") = false →
  (∀ f, guess_type w' f = guess_type w f) →
  trace (resolve_attachment att w) = []
  ∧ resolve_attachment att w' = resolve_attachment att w.
Proof.
  intros Hp Hg. rewrite !resolve_attachment_cases, Hp.
  destruct (Str.otruthy (att !! "content_base64")); [|now split].
  destruct (Str.otruthy (att !! "filename")) eqn:Hf; [|now split].
  rewrite !base64_branch_run by exact Hf. rewrite Hg. now split.
Qed.

Lemma inline_items_run atts w w' :
  Forall (λ att, Str.otruthy (att !! "path") = false) atts →
  (∀ f, guess_type w' f = guess_type w f) →
  trace (attach_all atts w) = [] ∧ attach_all atts w' = attach_all atts w.
Proof.
  intros Hall Hg. induction Hall as [|att atts Hp _ [IHt IHr]]; [now split|].
  rewrite !attach_all_cons.
  destruct (inline_item_run att w w' Hp Hg) as [Ht Hr]. rewrite Hr.
  destruct (resolve_attachment att w) as [t [r|e]]; cbn [trace fst] in Ht; subst t;
    [|now split].
  rewrite IHr. destruct (attach_all atts w) as [t' [ps|e]];
    cbn [trace fst] in IHt; subst t'; now split.
Qed.




(** ** What reaches the token file *)





(** ** The size limit as a decimal number *)

Lemma digits_of_uint_acc d acc :
  PyInt.digits (Z.pos acc) true (NilEmpty.string_of_uint d)
  = Some (Z.pos (Pos.of_uint_acc d acc)).
Proof.
  revert acc. induction d; intros acc;
    cbn [NilEmpty.string_of_uint PyInt.digits Pos.of_uint_acc];
    [reflexivity|..];
    match goal with
    | |- context [PyInt.digit ?c] =>
        let v := eval vm_compute in (PyInt.digit c) in
        change (PyInt.digit c) with v; cbn iota
    end;
    match goal with
    | |- PyInt.digits ?a true _ = Some (Z.pos (Pos.of_uint_acc _ ?b)) =>
        replace a with (Z.pos b) by lia; apply IHd
    end.
Qed.

Lemma digits_of_uint d :
  PyInt.digits 0 true (NilEmpty.string_of_uint d) = Some (Z.of_N (Pos.of_uint d)).
Proof.
  induction d;
    cbn [NilEmpty.string_of_uint PyInt.digits Pos.of_uint];
    [reflexivity|..];
    match goal with
    | |- context [PyInt.digit ?c] =>
        let v := eval vm_compute in (PyInt.digit c) in
        change (PyInt.digit c) with v; cbn iota
    end;
    [exact IHd|..];
    match goal with
    | |- PyInt.digits ?a true _ = _ =>
        let v := eval vm_compute in a in
        change a with v; apply digits_of_uint_acc
    end.
Qed.

Lemma digits_first_flag d b :
  d ≠ Decimal.Nil →
  PyInt.digits 0 b (NilEmpty.string_of_uint d)
  = PyInt.digits 0 true (NilEmpty.string_of_uint d).
Proof.
  destruct d; [done|..]; intros _;
    cbn [NilEmpty.string_of_uint PyInt.digits];
    match goal with
    | |- context [PyInt.digit ?c] =>
        let v := eval vm_compute in (PyInt.digit c) in
        change (PyInt.digit c) with v; reflexivity
    end.
Qed.

Lemma numeral_chars d :
  Str.forallb_char (λ c, bool_decide (is_Some (PyInt.digit c)))
    (NilEmpty.string_of_uint d) = true.
Proof.
  induction d; cbn [NilEmpty.string_of_uint Str.forallb_char];
    [reflexivity|..]; rewrite IHd; reflexivity.
Qed.

Lemma rstrip_no_space s :
  Str.forallb_char (λ c, negb (Str.is_space c)) s = true → Str.rstrip s = s.
Proof.
  induction s as [|a s IH]; [reflexivity|]. cbn [Str.forallb_char Str.rstrip].
  intros H. apply andb_true_iff in H as [Ha Hs]. rewrite (IH Hs).
  apply negb_true_iff in Ha. rewrite Ha. now destruct s.
Qed.

Lemma lstrip_no_space s :
  Str.forallb_char (λ c, negb (Str.is_space c)) s = true → Str.lstrip s = s.
Proof.
  destruct s as [|a s]; [reflexivity|]. cbn [Str.forallb_char Str.lstrip].
  intros H. apply andb_true_iff in H as [Ha _].
  apply negb_true_iff in Ha. now rewrite Ha.
Qed.

Lemma digit_facts :
  forall_ascii (λ c, implb (bool_decide (is_Some (PyInt.digit c)))
                       (negb (Str.is_space c) && negb (Ascii.eqb c "-")
                        && negb (Ascii.eqb c "+"))) = true.
Proof. vm_compute. reflexivity. Qed.

Lemma int_of_numeral n :
  PyInt.int (Generator.str_N n) = Some (Z.of_N n).
Proof.
  unfold PyInt.int, Generator.str_N.
  pose proof (numeral_chars (N.to_uint n)) as Hd.
  assert (∀ c, bool_decide (is_Some (PyInt.digit c)) = true →
               Str.is_space c = false ∧ Ascii.eqb c "-" = false
               ∧ Ascii.eqb c "+" = false) as Hf.
  { intros c Hc. pose proof (forall_ascii_spec _ digit_facts c) as H.
    cbn beta in H. rewrite Hc in H. cbn [implb] in H.
    apply andb_true_iff in H as [H H3]. apply andb_true_iff in H as [H1 H2].
    apply negb_true_iff in H1, H2, H3. auto. }
  assert (Str.strip (NilEmpty.string_of_uint (N.to_uint n))
          = NilEmpty.string_of_uint (N.to_uint n)) as ->.
  { unfold Str.strip.
    assert (Str.forallb_char (λ c, negb (Str.is_space c))
              (NilEmpty.string_of_uint (N.to_uint n)) = true) as Hs.
    { revert Hd. apply forallb_char_impl. intros c Hc.
      destruct (Hf c Hc) as (-> & _). reflexivity. }
    now rewrite (lstrip_no_space _ Hs), (rstrip_no_space _ Hs). }
  assert (N.to_uint n ≠ Decimal.Nil) as Hnil.
  { destruct n as [|p]; [discriminate|].
    apply DecimalPos.Unsigned.to_uint_nonnil. }
  assert (PyInt.digits 0 false (NilEmpty.string_of_uint (N.to_uint n))
          = Some (Z.of_N n)) as Hval.
  { rewrite (digits_first_flag _ _ Hnil), digits_of_uint.
    change (Pos.of_uint (N.to_uint n)) with (N.of_uint (N.to_uint n)).
    now rewrite DecimalN.Unsigned.of_to. }
  destruct (NilEmpty.string_of_uint (N.to_uint n)) as [|c r] eqn:Hstr;
    [exact Hval|].
  cbn [Str.forallb_char] in Hd. apply andb_true_iff in Hd as [Hc _].
  destruct (Hf c Hc) as (_ & Hm & Hp).
  destruct c as [[] [] [] [] [] [] [] []]; try exact Hval; discriminate.
Qed.



